(** * Word-to-PDF conversion: font selection and orchestration

    A shallow embedding of [src/app/word-to-pdf/actions.ts]: the static font
    catalog, the [FontManager] class (font loading and the coverage
    heuristic of [getBestFontForText]), the helpers [processTextWithFonts]
    and [processImages], and the server action [convertWordToPdfAction].

    Conventions of the embedding.
    - A JavaScript string is the list of its UTF-16 code units ([list Z]).
    - A [Buffer] is the list of its bytes.
    - [null] and [undefined] results are [None].
    - A number is an IEEE 754 double ([spec_float]).
    - Node's [fs], [mammoth] and [pdfkit] are outside the repository; they
      are taken as a [Platform] record of oracles, and every statement is
      quantified over it. *)

From Stdlib Require Import ZArith QArith Lia.
From Stdlib Require Import Floats.SpecFloat.
From Stdlib Require Import Strings.String Strings.Ascii Init.Byte.
From stdpp Require Import base option list gmap.

Local Open Scope Z_scope.

(** ** JavaScript strings *)

Abbreviation jsstring := (list Z).
Abbreviation Buffer := (list byte).

(** A source literal (all literals of the file are ASCII). *)
Fixpoint lit (s : string) : jsstring :=
  match s with
  | EmptyString => []
  | String a s' => Z.of_N (N_of_ascii a) :: lit s'
  end.

(** [a === b] on strings. *)
Definition str_eqb (a b : jsstring) : bool := bool_decide (a = b).

(** A string is truthy when it is not empty. *)
Definition truthy (s : jsstring) : bool :=
  match s with [] => false | _ :: _ => true end.

(** ECMAScript WhiteSpace and LineTerminator code units: what
    [String.prototype.trim] strips and what [\s] matches. *)
Definition is_whitespace (c : Z) : bool :=
  (c =? 9) || (c =? 10) || (c =? 11) || (c =? 12) || (c =? 13) || (c =? 32)
  || (c =? 0xA0) || (c =? 0x1680) || ((0x2000 <=? c) && (c <=? 0x200A))
  || (c =? 0x2028) || (c =? 0x2029) || (c =? 0x202F) || (c =? 0x205F)
  || (c =? 0x3000) || (c =? 0xFEFF).

Fixpoint trimStart (s : jsstring) : jsstring :=
  match s with
  | [] => []
  | c :: s' => if is_whitespace c then trimStart s' else s
  end.

Definition trimEnd (s : jsstring) : jsstring := rev (trimStart (rev s)).

Definition trim (s : jsstring) : jsstring := trimEnd (trimStart s).

Fixpoint startsWith (p s : jsstring) : bool :=
  match p, s with
  | [], _ => true
  | _ :: _, [] => false
  | a :: p', b :: s' => (a =? b) && startsWith p' s'
  end.

(** [s.includes(p)] *)
Fixpoint includes (s p : jsstring) : bool :=
  startsWith p s ||
  match s with
  | [] => false
  | _ :: s' => includes s' p
  end.

(** *** Iteration by code point

    [Array.from(text)] runs the string iterator: a high surrogate directly
    followed by a low surrogate is one element of two code units, every
    other code unit (a lone surrogate too) is an element of its own. *)

Definition is_high_surrogate (c : Z) : bool := (0xD800 <=? c) && (c <=? 0xDBFF).
Definition is_low_surrogate (c : Z) : bool := (0xDC00 <=? c) && (c <=? 0xDFFF).

Fixpoint Array_from (s : jsstring) : list jsstring :=
  match s with
  | [] => []
  | c :: rest =>
      match rest with
      | d :: rest' =>
          if is_high_surrogate c && is_low_surrogate d
          then [c; d] :: Array_from rest'
          else [c] :: Array_from rest
      | [] => [[c]]
      end
  end.

(** [char.codePointAt(0)]; [None] is [undefined] (empty string). *)
Definition codePointAt0 (char : jsstring) : option Z :=
  match char with
  | [] => None
  | c :: rest =>
      match rest with
      | d :: _ =>
          if is_high_surrogate c && is_low_surrogate d
          then Some ((c - 0xD800) * 0x400 + (d - 0xDC00) + 0x10000)
          else Some c
      | [] => Some c
      end
  end.

(** [x || 0] on a number or [undefined]. *)
Definition or_zero (x : option Z) : Z :=
  match x with
  | Some v => if v =? 0 then 0 else v
  | None => 0
  end.

(** ** JavaScript numbers

    A number is an IEEE 754 binary64 value, in the executable
    specification of the standard library ([prec = 53], [emax = 1024]).
    The file divides one integer count by another and compares the
    quotient with the literal [0.8]. *)

(** An integer as a number. *)
Definition number_of_Z (z : Z) : spec_float := binary_normalize 53 1024 z 0 false.

(** [a / b] for integer-valued [a], [b]: correctly rounded, [0 / 0] is
    [NaN]. *)
Definition js_div (a b : Z) : spec_float :=
  SFdiv 53 1024 (number_of_Z a) (number_of_Z b).

(** [x > y]; false when either side is [NaN]. *)
Definition js_gt (x y : spec_float) : bool := SFltb y x.

(** The literal [0.8]: the double [0x3FE999999999999A], that is
    [7205759403792794 * 2^-53]. *)
Definition literal_0_8 : spec_float := S754_finite false 7205759403792794 (-53).

(** ** The font catalog *)

Record FontConfigEntry : Type := {
  name : jsstring;
  file : jsstring;
  description : jsstring;
  unicodeRanges : list (Z * Z)
}.

Definition NotoSansSC : FontConfigEntry := {|
  name := lit "NotoSansSC";
  file := lit "NotoSansSC-VariableFont_wght.ttf";
  description := lit "Chinese Simplified";
  unicodeRanges :=
    [ (0x4E00, 0x9FFF);
      (0x3400, 0x4DBF);
      (0x20000, 0x2A6DF);
      (0x2A700, 0x2B73F);
      (0x2B740, 0x2B81F);
      (0x2B820, 0x2CEAF);
      (0x2CEB0, 0x2EBEF);
      (0x3000, 0x303F);
      (0xFF00, 0xFFEF) ]
|}.

Definition DejaVuSans : FontConfigEntry := {|
  name := lit "DejaVuSans";
  file := lit "DejaVuSans.ttf";
  description := lit "Latin, Cyrillic, Greek";
  unicodeRanges :=
    [ (0x0000, 0x007F);
      (0x0080, 0x00FF);
      (0x0100, 0x017F);
      (0x0180, 0x024F);
      (0x0370, 0x03FF);
      (0x0400, 0x04FF);
      (0x0500, 0x052F);
      (0x1E00, 0x1EFF);
      (0x2000, 0x206F);
      (0x20A0, 0x20CF) ]
|}.

Definition FONT_CONFIG : list FontConfigEntry := [NotoSansSC; DejaVuSans].

(** ** Exceptions and the platform *)

(** A thrown value: an [Error] object with its [message]. *)
Record Error : Type := mkError { message : jsstring }.

Inductive Result (A : Type) : Type :=
  | Ok (a : A)
  | Throw (e : Error).
Arguments Ok {A} a.
Arguments Throw {A} e.

(** An image handed to mammoth's [convertImage] callback, after
    [image.read()]. *)
Record Image : Type := {
  buffer : Buffer;
  contentType : jsstring
}.

(** Arguments of the PDFKit calls the file makes. *)
Inductive FontSource : Type :=
  | FontBuffer (b : Buffer)
  | FontByName (n : jsstring).

Record TextOptions : Type := {
  align : jsstring;
  lineGap : option Z;
  paragraphGap : option Z;
  width : option Z
}.

Record ImageOptions : Type := {
  fit : Z * Z;
  img_align : jsstring;
  valign : jsstring
}.

Inductive PdfCall : Type :=
  | AddPage
  | SetFont (src : FontSource)
  | FontSize (n : Z)
  | Text (s : jsstring) (o : TextOptions)
  | MoveDown (lines : Q)
  | EmbedImage (b : Buffer) (o : ImageOptions).

(** What [pdfDoc.end()], called inside the promise executor, leads to,
    by what happens first: it returns and the ['end'] event follows the
    ['data'] chunks; it returns and the ['error'] event is emitted; it
    throws; or it returns and neither event is ever emitted. *)
Inductive StreamOutcome : Type :=
  | StreamEnd (chunks : list Buffer)
  | StreamError (err : Error)
  | EndThrows (e : Error)
  | StreamSilent.

(** The collaborators outside the repository. A PDF document is the list of
    the calls it has accepted, oldest first; [pdf_throws doc c] is the
    error call [c] raises on document [doc], if any. *)
Record Platform : Type := {
  cwd : jsstring;
  existsSync : jsstring -> bool;
  readFileSync : jsstring -> Result Buffer;
  Buffer_from_base64 : jsstring -> Buffer;
  Buffer_toString_base64 : Buffer -> jsstring;
  mammoth_extractRawText : Buffer -> Result jsstring;
  mammoth_convertToHtml : Buffer -> Result (list Image);
  page_width : Z;
  page_height : Z;
  pdf_throws : list PdfCall -> PdfCall -> option Error;
  pdf_end : list PdfCall -> StreamOutcome
}.

(** [path.join] of already normal segments. *)
Fixpoint path_join (parts : list jsstring) : jsstring :=
  match parts with
  | [] => lit "."
  | [p] => p
  | p :: rest => p ++ lit "/" ++ path_join rest
  end.

(** ** FontManager

    [loadedFonts] is a [Map] keyed by font name. Its iteration order is
    used by [getAvailableFonts] alone, whose result only goes into a log
    line, so the map is a [gmap] and that accessor is left out. *)

Record FontManager : Type := {
  loadedFonts : gmap jsstring Buffer;
  fontPriority : list jsstring
}.

Section WithPlatform.

Variable P : Platform.

Definition fontsDir : jsstring :=
  path_join [cwd P; lit "src"; lit "assets"; lit "fonts"].

(** One turn of the loop of [loadAvailableFonts]: the [try] block and its
    [catch], which only logs. *)
Definition loadFont (fm : FontManager) (fontConfig : FontConfigEntry) : FontManager :=
  let fontPath := path_join [fontsDir; file fontConfig] in
  if existsSync P fontPath then
    match readFileSync P fontPath with
    | Ok fontBuffer =>
        {| loadedFonts := <[name fontConfig := fontBuffer]> (loadedFonts fm);
           fontPriority := fontPriority fm ++ [name fontConfig] |}
    | Throw _ => fm
    end
  else fm.

Definition loadAvailableFonts (fm : FontManager) : FontManager :=
  foldl loadFont fm FONT_CONFIG.

(** [new FontManager()] *)
Definition new_FontManager : FontManager :=
  loadAvailableFonts {| loadedFonts := ∅; fontPriority := [] |}.

End WithPlatform.

Definition isCodePointSupported (codePoint : Z) (ranges : list (Z * Z)) : bool :=
  existsb (fun r => (fst r <=? codePoint) && (codePoint <=? snd r)) ranges.

Definition textCodePoints (text : jsstring) : list Z :=
  map (fun char => or_zero (codePointAt0 char)) (Array_from text).

(** The inner counting loop. *)
Definition supportedChars (codePoints : list Z) (ranges : list (Z * Z)) : Z :=
  foldl (fun n codePoint =>
           if isCodePointSupported codePoint ranges then n + 1 else n)
        0 codePoints.

(** [FONT_CONFIG.find(f => f.name === fontName)] *)
Definition findConfig (fontName : jsstring) : option FontConfigEntry :=
  find (fun f => str_eqb (name f) fontName) FONT_CONFIG.

(** The loop over [fontPriority]. [Some r] is a [return r] from inside the
    loop, [None] is falling out of it. *)
Fixpoint priorityLoop (fm : FontManager) (codePoints : list Z)
    (names : list jsstring) : option (option Buffer) :=
  match names with
  | [] => None
  | fontName :: rest =>
      match findConfig fontName with
      | None => priorityLoop fm codePoints rest
      | Some fontConfig =>
          if js_gt (js_div (supportedChars codePoints (unicodeRanges fontConfig))
                           (Z.of_nat (length codePoints)))
                   literal_0_8
          then Some (loadedFonts fm !! fontName)
          else priorityLoop fm codePoints rest
      end
  end.

Definition getBestFontForText (fm : FontManager) (text : jsstring) : option Buffer :=
  if (size (loadedFonts fm) =? 0)%nat then None
  else
    let codePoints := textCodePoints text in
    match priorityLoop fm codePoints (fontPriority fm) with
    | Some r => r
    | None =>
        match fontPriority fm !! 0%nat with
        | Some firstFont =>
            if truthy firstFont then loadedFonts fm !! firstFont else None
        | None => None
        end
    end.

(** ** PDF document operations

    The code drives one mutable [PDFDocument]; a computation takes the
    document and gives it back, also when it throws, so that a [catch]
    block continues on the document as the failed [try] block left it. *)

Definition PDF (A : Type) : Type := list PdfCall -> Result A * list PdfCall.

Definition ret {A} (a : A) : PDF A := fun doc => (Ok a, doc).

Definition throw {A} (e : Error) : PDF A := fun doc => (Throw e, doc).

Definition bind {A B} (m : PDF A) (k : A -> PDF B) : PDF B :=
  fun doc =>
    match m doc with
    | (Ok a, doc') => k a doc'
    | (Throw e, doc') => (Throw e, doc')
    end.

Definition try_catch {A} (body : PDF A) (handler : Error -> PDF A) : PDF A :=
  fun doc =>
    match body doc with
    | (Ok a, doc') => (Ok a, doc')
    | (Throw e, doc') => handler e doc'
    end.

Notation "'let*' x := m 'in' k" := (bind m (fun x => k))
  (at level 10, x name, m at level 100, k at level 200).
Notation "m ;; k" := (bind m (fun _ => k))
  (at level 100, k at level 200, right associativity).

(** [for (const x of xs) body(x)] *)
Fixpoint for_of {A} (xs : list A) (body : A -> PDF unit) : PDF unit :=
  match xs with
  | [] => ret tt
  | x :: xs' => body x ;; for_of xs' body
  end.

Definition is_AddPage (c : PdfCall) : bool :=
  match c with AddPage => true | _ => false end.

Section Conversion.

Variable P : Platform.

(** A method call on [pdfDoc]. *)
Definition call (c : PdfCall) : PDF unit :=
  fun doc =>
    match pdf_throws P doc c with
    | Some e => (Throw e, doc)
    | None => (Ok tt, doc ++ [c])
    end.

(** [pdfDoc.page.width] and [pdfDoc.page.height]: [pdfDoc.page] is [null]
    until the first [addPage()] (the document is created with
    [autoFirstPage: false]). *)
Definition page_prop (prop : string) (value : Z) : PDF Z :=
  fun doc =>
    if existsb is_AddPage doc then (Ok value, doc)
    else (Throw (mkError (lit "Cannot read properties of null (reading '"
                           ++ lit prop ++ lit "')")), doc).

Definition get_page_width : PDF Z := page_prop "width" (page_width P).
Definition get_page_height : PDF Z := page_prop "height" (page_height P).

(** [if (fontBuffer) pdfDoc.font(fontBuffer) else pdfDoc.font('Helvetica')];
    a [Buffer] is an object and so always truthy. *)
Definition applyFont (fontBuffer : option Buffer) : PDF unit :=
  match fontBuffer with
  | Some b => call (SetFont (FontBuffer b))
  | None => call (SetFont (FontByName (lit "Helvetica")))
  end.

(** *** [text.split(/\n\s*\n/)]

    At a line feed the pattern matches when the run of white space after
    it holds another line feed, and then (greedy [\s*], backtracking to
    the last line feed) up to and including the last line feed of that
    run. [separatorTail s] is the number of code units of that match
    after its first line feed, for [s] the text after the line feed. *)

Fixpoint separatorTail (s : jsstring) : option nat :=
  match s with
  | [] => None
  | c :: s' =>
      if is_whitespace c then
        match separatorTail s' with
        | Some n => Some (S n)
        | None => if c =? 10 then Some 1%nat else None
        end
      else None
  end.

(** The split loop: [cur] is the piece being read (reversed), [skip] the
    code units of the current separator still to pass over. *)
Fixpoint splitLoop (cur : jsstring) (skip : nat) (s : jsstring) : list jsstring :=
  match s with
  | [] => [rev cur]
  | c :: s' =>
      match skip with
      | S k => splitLoop cur k s'
      | O =>
          if c =? 10 then
            match separatorTail s' with
            | Some n => rev cur :: splitLoop [] n s'
            | None => splitLoop (c :: cur) O s'
            end
          else splitLoop (c :: cur) O s'
      end
  end.

Definition splitParagraphs (text : jsstring) : list jsstring :=
  splitLoop [] O text.

(** *** [processTextWithFonts] *)

Definition paragraphOptions (w : Z) : TextOptions :=
  {| align := lit "left"; lineGap := Some 4; paragraphGap := Some 8;
     width := Some (w - 144) |}.

Definition emitParagraph (paragraph : jsstring) : PDF unit :=
  call (FontSize 12) ;;
  let* w := get_page_width in
  call (Text (trim paragraph) (paragraphOptions w)) ;;
  call (MoveDown (1 # 2)).

Definition processParagraph (fontManager : FontManager) (paragraph : jsstring) : PDF unit :=
  if negb (truthy (trim paragraph)) then ret tt
  else
    let fontBuffer := getBestFontForText fontManager paragraph in
    try_catch
      (applyFont fontBuffer ;; emitParagraph paragraph)
      (fun fontError =>
         call (SetFont (FontByName (lit "Helvetica"))) ;;
         emitParagraph paragraph).

Definition processTextWithFonts (text : jsstring) (fontManager : FontManager) : PDF unit :=
  let paragraphs := List.filter (fun p => truthy (trim p)) (splitParagraphs text) in
  for_of paragraphs (processParagraph fontManager).

(** *** [processImages] *)

Definition centered : TextOptions :=
  {| align := lit "center"; lineGap := None; paragraphGap := None; width := None |}.

(** The placeholder line of both the unsupported-type branch and the
    [catch] block. *)
Definition placeholderLine (fontManager : FontManager) (errorText : jsstring) : PDF unit :=
  let fontBuffer := getBestFontForText fontManager errorText in
  applyFont fontBuffer ;;
  call (FontSize 10) ;;
  call (Text errorText centered).

Definition processImage (fontManager : FontManager) (img : Image) : PDF unit :=
  call AddPage ;;
  try_catch
    (if str_eqb (contentType img) (lit "image/jpeg")
        || str_eqb (contentType img) (lit "image/png")
     then
       let* w := get_page_width in
       let* h := get_page_height in
       call (EmbedImage (buffer img)
               {| fit := (w - 144, h - 144);
                  img_align := lit "center"; valign := lit "center" |})
     else
       placeholderLine fontManager
         (lit "[Unsupported image type: " ++ contentType img ++ lit "]"))
    (fun imgError =>
       placeholderLine fontManager
         (lit "[Error embedding image: " ++ message imgError ++ lit "]")).

Definition processImages (images : list Image) (fontManager : FontManager) : PDF unit :=
  for_of images (processImage fontManager).

(** ** The server action *)

Record ConvertWordToPdfInput : Type := {
  docxFileBase64 : jsstring;
  originalFileName : jsstring
}.

Record ConvertWordToPdfOutput : Type := {
  pdfDataUri : option jsstring;
  error : option jsstring
}.

Definition error_output (msg : jsstring) : ConvertWordToPdfOutput :=
  {| pdfDataUri := None; error := Some msg |}.

Definition pdf_output (uri : jsstring) : ConvertWordToPdfOutput :=
  {| pdfDataUri := Some uri; error := None |}.

(** The promise returned by the [async] function, as its caller observes
    it: fulfilled with a value; rejected with the object the only
    [reject] of the file passes; rejected with an exception thrown inside
    the executor; or left pending for ever. *)
Inductive Settled : Type :=
  | Fulfilled (value : ConvertWordToPdfOutput)
  | Rejected (reason : ConvertWordToPdfOutput)
  | RejectedWith (e : Error)
  | Pending.

(** The [this] value of a call. [convertWordToPdfAction] is a function of
    an ES module (strict code): a plain call, as in [page.tsx], runs it
    with [this] undefined; [f.apply(null, ...)] with [null]. [ThisObject t
    i] is an object whose property [processTextWithFonts] (resp.
    [processImages]) is this module's function of that name when [t]
    (resp. [i]) holds, and is missing otherwise. *)
Inductive ThisValue : Type :=
  | ThisUndefined
  | ThisNull
  | ThisObject (hasProcessTextWithFonts hasProcessImages : bool).

(** [this.prop(...)] where [method] is the module function bound to
    [prop]. *)
Definition this_call (this : ThisValue) (prop : string)
    (bound : ThisValue -> bool) (method : PDF unit) : PDF unit :=
  match this with
  | ThisUndefined =>
      throw (mkError (lit "Cannot read properties of undefined (reading '"
                      ++ lit prop ++ lit "')"))
  | ThisNull =>
      throw (mkError (lit "Cannot read properties of null (reading '"
                      ++ lit prop ++ lit "')"))
  | ThisObject _ _ =>
      if bound this then method
      else throw (mkError (lit "this." ++ lit prop ++ lit " is not a function"))
  end.

Definition hasText (this : ThisValue) : bool :=
  match this with ThisObject t _ => t | _ => false end.

Definition hasImages (this : ThisValue) : bool :=
  match this with ThisObject _ i => i | _ => false end.

(** Steps 3 to 5: the calls on the new document. *)
Definition buildDocument (this : ThisValue) (textContent : jsstring)
    (images : list Image) (fontManager : FontManager) : PDF unit :=
  call AddPage ;;
  this_call this "processTextWithFonts" hasText
    (processTextWithFonts textContent fontManager) ;;
  if (0 <? length images)%nat then
    this_call this "processImages" hasImages
      (processImages images fontManager)
  else ret tt.

(** The executor of the returned promise: the ['end'] handler resolves,
    the ['error'] handler rejects with an output object, an exception of
    [pdfDoc.end()] rejects the promise with that exception, and without
    an event the promise stays pending. The promise is returned without
    [await], so the [catch] block of the action sees none of this. *)
Definition finalize (doc : list PdfCall) : Settled :=
  match pdf_end P doc with
  | StreamEnd pdfChunks =>
      let pdfBytes := concat pdfChunks in
      Fulfilled (pdf_output (lit "data:application/pdf;base64,"
                             ++ Buffer_toString_base64 P pdfBytes))
  | StreamError err =>
      Rejected (error_output (lit "Failed to finalize PDF document. " ++ message err))
  | EndThrows e => RejectedWith e
  | StreamSilent => Pending
  end.

(** The [try] block: [Ok s] is a [return] (of a value, or of the promise
    that ends as [s]), [Throw e] an exception reaching the [catch]. *)
Definition tryBlock (this : ThisValue) (input : ConvertWordToPdfInput) : Result Settled :=
  let docxFileBuffer := Buffer_from_base64 P (docxFileBase64 input) in
  if (length docxFileBuffer =? 0)%nat then
    Ok (Fulfilled (error_output (lit "Empty DOCX file data received after base64 decoding.")))
  else
    let fontManager := new_FontManager P in
    match mammoth_extractRawText P docxFileBuffer with
    | Throw e => Throw e
    | Ok textContent =>
        if negb (truthy (trim textContent)) then
          Ok (Fulfilled (error_output (lit "No text content found in the document.")))
        else
          match mammoth_convertToHtml P docxFileBuffer with
          | Throw e => Throw e
          | Ok images =>
              match buildDocument this textContent images fontManager [] with
              | (Throw e, _) => Throw e
              | (Ok _, doc) => Ok (finalize doc)
              end
          end
    end.

Definition catchBlock (e : Error) : ConvertWordToPdfOutput :=
  let errorMessage := lit "Failed to convert Word document. " ++ message e in
  let errorMessage :=
    if truthy (message e)
       && includes (message e) (lit "Unrecognised Office Open XML")
    then lit "The uploaded file does not appear to be a valid .docx file or is corrupted."
    else errorMessage in
  error_output errorMessage.

Definition convertWordToPdfAction (this : ThisValue)
    (input : ConvertWordToPdfInput) : Settled :=
  if negb (truthy (docxFileBase64 input)) then
    Fulfilled (error_output (lit "No DOCX file data provided for conversion."))
  else
    match tryBlock this input with
    | Ok settled => settled
    | Throw e => Fulfilled (catchBlock e)
    end.

End Conversion.

(** ** Vocabulary of the specification *)

(** The bytes of a catalog font that loads on platform [P]: its file
    exists and reading it succeeds. *)
Definition loaded (P : Platform) (cfg : FontConfigEntry) : option Buffer :=
  let fontPath := path_join [fontsDir P; file cfg] in
  if existsSync P fontPath then
    match readFileSync P fontPath with
    | Ok b => Some b
    | Throw _ => None
    end
  else None.

(** A code point lies inside one of the inclusive ranges. *)
Definition in_ranges (ranges : list (Z * Z)) (cp : Z) : Prop :=
  ∃ r, r ∈ ranges ∧ r.1 ≤ cp ≤ r.2.

Global Instance in_ranges_dec ranges cp : Decision (in_ranges ranges cp).
Proof.
  refine (cast_if (decide (Exists (λ r : Z * Z, r.1 ≤ cp ≤ r.2) ranges)));
    unfold in_ranges; rewrite Exists_exists in *; naive_solver.
Defined.

(** The number of code points of [text] that font [cfg] covers. *)
Definition covered (cfg : FontConfigEntry) (text : jsstring) : nat :=
  length (filter (in_ranges (unicodeRanges cfg)) (textCodePoints text)).

(** Coverage fraction of a non-empty text: covered code points divided by
    all code points. *)
Definition coverage (cfg : FontConfigEntry) (text : jsstring) : Q :=
  (Qmake (Z.of_nat (covered cfg text)) 1
   / Qmake (Z.of_nat (length (textCodePoints text))) 1)%Q.

(** The code points of the text fit a JavaScript array, whose length is
    below [2^32]. *)
Definition fits_array (text : jsstring) : Prop :=
  Z.of_nat (length (textCodePoints text)) < 2 ^ 32.

(** The font clears the threshold on [text]. *)
Definition clears (cfg : FontConfigEntry) (text : jsstring) : Prop :=
  (8 # 10 < coverage cfg text)%Q.

(** A string of white space only (the empty string included). *)
Definition blank (s : jsstring) : Prop := Forall (λ c, is_whitespace c = true) s.

(** The renderer accepts every call but, possibly, the embedding of an
    image. *)
Definition only_images_fail (P : Platform) : Prop :=
  ∀ doc c, (∀ b o, c ≠ EmbedImage b o) → pdf_throws P doc c = None.

(** The renderer accepts every call. *)
Definition renderer_accepts_all (P : Platform) : Prop :=
  ∀ doc c, pdf_throws P doc c = None.

(** The content type is one of the two the code embeds. *)
Definition supportedImage (img : Image) : Prop :=
  contentType img = lit "image/jpeg" ∨ contentType img = lit "image/png".

Global Instance supportedImage_dec img : Decision (supportedImage img).
Proof. unfold supportedImage. apply _. Defined.

(** The font PDFKit is given for a selection. *)
Definition fontSource (selection : option Buffer) : FontSource :=
  match selection with
  | Some b => FontBuffer b
  | None => FontByName (lit "Helvetica")
  end.

(** A placeholder line: the selected font, size 10, the centred text. *)
Definition placeholderCalls (fm : FontManager) (errorText : jsstring) : list PdfCall :=
  [SetFont (fontSource (getBestFontForText fm errorText));
   FontSize 10;
   Text errorText centered].

(** The embedding call for an image on platform [P]. *)
Definition embedCall (P : Platform) (img : Image) : PdfCall :=
  EmbedImage (buffer img)
    {| fit := (page_width P - 144, page_height P - 144);
       img_align := lit "center"; valign := lit "center" |}.


(** ** A test platform

    A concrete [Platform] for examples: Node's base64 codec on well-formed
    input, a file system holding the listed files, and an extractor and a
    renderer that behave as scripted. *)

Module TestPlatform.

Definition alphabet : list Z :=
  lit "ABCDEFGHIJKLMNOPQRSTUVWXYZabcdefghijklmnopqrstuvwxyz0123456789+/".

Fixpoint index_of (c : Z) (l : list Z) (i : Z) : option Z :=
  match l with
  | [] => None
  | x :: l' => if x =? c then Some i else index_of c l' (i + 1)
  end.

(** The sextets of the characters before the first padding character;
    characters outside the alphabet are skipped. *)
Fixpoint sextets (s : jsstring) : list Z :=
  match s with
  | [] => []
  | c :: s' =>
      if c =? 61 then []
      else match index_of c alphabet 0 with
           | Some v => v :: sextets s'
           | None => sextets s'
           end
  end.

Definition byte_of_Z (z : Z) : byte :=
  default x00 (Byte.of_N (Z.to_N (z mod 256))).

Definition Z_of_byte (b : byte) : Z := Z.of_N (Byte.to_N b).

Fixpoint decode_sextets (l : list Z) : Buffer :=
  match l with
  | a :: b :: c :: d :: rest =>
      let n := a * 262144 + b * 4096 + c * 64 + d in
      byte_of_Z (n / 65536) :: byte_of_Z (n / 256) :: byte_of_Z n
      :: decode_sextets rest
  | [a; b; c] =>
      let n := a * 4096 + b * 64 + c in
      [byte_of_Z (n / 1024); byte_of_Z (n / 4)]
  | [a; b] => [byte_of_Z ((a * 64 + b) / 16)]
  | _ => []
  end.

Definition from_base64 (s : jsstring) : Buffer := decode_sextets (sextets s).

Definition sextet_char (v : Z) : Z := default 61 (alphabet !! Z.to_nat v).

Fixpoint to_base64 (b : Buffer) : jsstring :=
  match b with
  | x :: y :: z :: rest =>
      let n := Z_of_byte x * 65536 + Z_of_byte y * 256 + Z_of_byte z in
      sextet_char (n / 262144) :: sextet_char (n / 4096 mod 64)
      :: sextet_char (n / 64 mod 64) :: sextet_char (n mod 64)
      :: to_base64 rest
  | [x; y] =>
      let n := Z_of_byte x * 1024 + Z_of_byte y * 4 in
      [sextet_char (n / 4096); sextet_char (n / 64 mod 64);
       sextet_char (n mod 64); 61]
  | [x] =>
      let n := Z_of_byte x * 16 in
      [sextet_char (n / 64); sextet_char (n mod 64); 61; 61]
  | [] => []
  end.

(** The contents of a font file in the examples: its name, as bytes. *)
Definition file_bytes (path : jsstring) : Buffer := byte_of_Z <$> path.

Definition make
    (files : list jsstring)
    (extract : Result jsstring)
    (images : Result (list Image))
    (throws : list PdfCall -> PdfCall -> option Error)
    (stream : list PdfCall -> StreamOutcome) : Platform :=
  {| cwd := lit "/app";
     existsSync := fun path => bool_decide (path ∈ files);
     readFileSync := fun path => Ok (file_bytes path);
     Buffer_from_base64 := from_base64;
     Buffer_toString_base64 := to_base64;
     mammoth_extractRawText := fun _ => extract;
     mammoth_convertToHtml := fun _ => images;
     page_width := 612;
     page_height := 792;
     pdf_throws := throws;
     pdf_end := stream |}.

Definition notoPath : jsstring :=
  lit "/app/src/assets/fonts/NotoSansSC-VariableFont_wght.ttf".
Definition dejavuPath : jsstring :=
  lit "/app/src/assets/fonts/DejaVuSans.ttf".

(** A renderer that accepts every call and streams the call count. *)
Definition never_throws : list PdfCall -> PdfCall -> option Error :=
  fun _ _ => None.
Definition stream_ok : list PdfCall -> StreamOutcome :=
  fun doc => StreamEnd [[byte_of_Z 37; byte_of_Z 80; byte_of_Z 68; byte_of_Z 70];
                        [byte_of_Z (Z.of_nat (length doc))]].

(** Platforms with both fonts, the Latin font only, and no font at all. *)
Definition both_fonts : Platform :=
  make [notoPath; dejavuPath] (Ok (lit "Hello world")) (Ok []) never_throws stream_ok.
Definition latin_only : Platform :=
  make [dejavuPath] (Ok (lit "Hello world")) (Ok []) never_throws stream_ok.
Definition no_fonts : Platform :=
  make [] (Ok (lit "Hello world")) (Ok []) never_throws stream_ok.

(** A renderer that cannot embed an empty image. *)
Definition rejects_empty_images : list PdfCall -> PdfCall -> option Error :=
  fun _ c =>
    match c with
    | EmbedImage [] _ => Some (mkError (lit "Unknown image format."))
    | _ => None
    end.

(** A stream that fails at finalization. *)
Definition stream_fails : list PdfCall -> StreamOutcome :=
  fun _ => StreamError (mkError (lit "write EPIPE")).

Definition png : Image := {| buffer := [byte_of_Z 137]; contentType := lit "image/png" |}.
Definition empty_png : Image := {| buffer := []; contentType := lit "image/png" |}.
Definition bmp : Image := {| buffer := [byte_of_Z 66]; contentType := lit "image/bmp" |}.

(** A document of ASCII text without images; a document with an image
    and blank text; the same ASCII document on a failing stream. *)
Definition image_only : Platform :=
  make [notoPath; dejavuPath] (Ok [32; 10; 9]) (Ok [png]) never_throws stream_ok.
Definition with_images : Platform :=
  make [dejavuPath] (Ok (lit "Hello world")) (Ok [bmp; empty_png; png])
       rejects_empty_images stream_ok.
Definition failing_stream : Platform :=
  make [notoPath; dejavuPath] (Ok (lit "Hello world")) (Ok []) never_throws stream_fails.

(** The request: the base64 text of a four-byte payload. *)
Definition request : ConvertWordToPdfInput :=
  {| docxFileBase64 := lit "UEsDBA=="; originalFileName := lit "report.docx" |}.

(** A request whose payload decodes to nothing. *)
Definition padding_only : ConvertWordToPdfInput :=
  {| docxFileBase64 := lit "===="; originalFileName := lit "report.docx" |}.

(** Nine ideographs and a full stop; three Arabic letters. *)
Definition cjk_text : jsstring :=
  [0x4E2D; 0x6587; 0x5B57; 0x4F53; 0x9009; 0x62E9; 0x6D4B; 0x8BD5; 0x6587; 0x2E].
Definition arabic_text : jsstring := [0x0639; 0x0631; 0x0628].

End TestPlatform.

(** The action gets as far as the promise executor with document [doc]:
    the payload is not empty, both extraction steps succeed, the text is
    not blank and the document is built without an exception. *)
Definition reachesFinalization (P : Platform) (this : ThisValue)
    (input : ConvertWordToPdfInput) (doc : list PdfCall) : Prop :=
  ∃ textContent images,
    truthy (docxFileBase64 input) = true
    ∧ Buffer_from_base64 P (docxFileBase64 input) ≠ []
    ∧ mammoth_extractRawText P (Buffer_from_base64 P (docxFileBase64 input))
      = Ok textContent
    ∧ ¬ blank textContent
    ∧ mammoth_convertToHtml P (Buffer_from_base64 P (docxFileBase64 input))
      = Ok images
    ∧ buildDocument P this textContent images (new_FontManager P) []
      = (Ok tt, doc).

(** ** Vocabulary for the rendered text *)

(** The code units of a string that are not white space, in order. *)
Definition content (s : jsstring) : jsstring :=
  filter (λ c, is_whitespace c = false) s.

(** The paragraphs [processTextWithFonts] iterates over: the pieces of the
    split whose trimmed form is not empty. *)
Definition paragraphsOf (text : jsstring) : list jsstring :=
  List.filter (λ p, truthy (trim p)) (splitParagraphs text).

(** The calls that render one paragraph in font [src]. *)
Definition paragraphCalls (P : Platform) (src : FontSource) (paragraph : jsstring)
    : list PdfCall :=
  [SetFont src;
   FontSize 12;
   Text (trim paragraph) (paragraphOptions (page_width P));
   MoveDown (1 # 2)].

(** The string a call puts on the page, if it is a text call. *)
Definition textOf (c : PdfCall) : jsstring :=
  match c with
  | Text s _ => s
  | _ => []
  end.

(** A blank line inside a string: a line feed, white space, and a line
    feed again, which is what the split pattern matches. *)
Definition has_blank_line (s : jsstring) : Prop :=
  ∃ before after n, s = before ++ 10 :: after ∧ separatorTail after = Some n.

(** The renderer rejects every font given as a buffer and accepts every
    other call. *)
Definition rejects_custom_fonts (P : Platform) : Prop :=
  (∀ doc b, is_Some (pdf_throws P doc (SetFont (FontBuffer b))))
  ∧ (∀ doc c, (∀ b, c ≠ SetFont (FontBuffer b)) → pdf_throws P doc c = None).

(** A computation only adds calls to the document, whether it returns or
    throws. *)
Definition appends {A} (m : PDF A) : Prop :=
  ∀ doc, ∃ added, (m doc).2 = doc ++ added.

(** The number of [addPage()] calls of a document. It is a lower bound of
    the number of pages: the renderer starts pages by itself when a text
    overflows. *)
Definition addPageCalls (doc : list PdfCall) : nat :=
  length (List.filter is_AddPage doc).

(** ** Further test fixtures *)

Module Fixtures.

(** A renderer that cannot parse any font buffer. *)
Definition rejects_font_buffers : list PdfCall -> PdfCall -> option Error :=
  fun _ c =>
    match c with
    | SetFont (FontBuffer _) => Some (mkError (lit "Unknown font format"))
    | _ => None
    end.

(** Both font files are present, and the renderer rejects them. *)
Definition corrupt_fonts : Platform :=
  TestPlatform.make [TestPlatform.notoPath; TestPlatform.dejavuPath]
    (Ok (lit "Hello world")) (Ok [TestPlatform.bmp])
    rejects_font_buffers TestPlatform.stream_ok.

(** An extractor that does not recognise the payload. *)
Definition not_a_docx : Platform :=
  TestPlatform.make [TestPlatform.dejavuPath]
    (Throw (mkError (lit "Could not find file in options; Unrecognised Office Open XML document")))
    (Ok []) TestPlatform.never_throws TestPlatform.stream_ok.

(** A document with text and three images, one of them unusable. *)
Definition text_and_images : Platform := TestPlatform.with_images.

End Fixtures.

(** ** The page ([page.tsx])

    The page keeps four state variables and reacts to three events. A
    handler is given the state it was created with and returns the state
    after its [set...] calls together with the toasts and downloads it
    triggered, in order. [readFileAsArrayBuffer] and the browser's
    [Buffer] are outside the repository and are taken as a [Browser]
    record. *)

Module Page.

(** A [File]: its [name] and [type] properties. *)
Record File : Type := { name : jsstring; type : jsstring }.

Record State : Type := {
  file : option File;
  isConverting : bool;
  convertedPdfUri : option jsstring;
  error : option jsstring
}.

Inductive Effect : Type :=
  | toast (title description : jsstring) (variant : option jsstring)
  | downloadDataUri (dataUri fileName : jsstring)
  | resetInputValue.

Record Browser : Type := {
  readFileAsArrayBuffer : File -> Result Buffer;
  Buffer_toString_base64 : Buffer -> jsstring
}.

Definition docxType : jsstring :=
  lit "application/vnd.openxmlformats-officedocument.wordprocessingml.document".

Definition handleFileSelected (selectedFiles : list File) (st : State)
    : State * list Effect :=
  match selectedFiles with
  | selectedFile :: _ =>
      if negb (str_eqb (type selectedFile) docxType) then
        ({| file := None; isConverting := isConverting st;
            convertedPdfUri := None; error := None |},
         [toast (lit "Invalid File Type") (lit "Please upload a .docx file.")
                (Some (lit "destructive"))])
      else
        ({| file := Some selectedFile; isConverting := isConverting st;
            convertedPdfUri := None; error := None |}, [])
  | [] =>
      ({| file := None; isConverting := isConverting st;
          convertedPdfUri := None; error := None |}, [])
  end.

(** [event.target.files] is a [FileList] or [null]. *)
Definition handleFileChangeFromInput (files : option (list File)) (st : State)
    : State * list Effect :=
  let '(st', effects) :=
    match files with
    | Some selectedFiles => handleFileSelected selectedFiles st
    | None => (st, [])
    end in
  (st', effects ++ [resetInputValue]).

Definition endsWith (s suffix : jsstring) : bool :=
  startsWith (rev suffix) (rev s).

(** [name.replace(/\.docx$/, '')]: the pattern can only match the last
    five code units. *)
Definition replaceDocxSuffix (s : jsstring) : jsstring :=
  if endsWith s (lit ".docx") then take (length s - 5) s else s.

(** A value caught by the [catch] block: an [Error], or the object a
    rejected action carries, which has no [message]. *)
Inductive Thrown : Type :=
  | ThrownError (e : Error)
  | ThrownObject (o : ConvertWordToPdfOutput).

(** [e.message || "An unexpected error occurred during conversion."] *)
Definition messageOrDefault (e : Thrown) : jsstring :=
  match e with
  | ThrownError err =>
      if truthy (message err) then message err
      else lit "An unexpected error occurred during conversion."
  | ThrownObject _ => lit "An unexpected error occurred during conversion."
  end.

(** The [catch] block of [handleConvert]. *)
Definition catchConversion (e : Thrown) (st : State) : State * list Effect :=
  let errorMessage := messageOrDefault e in
  ({| file := file st; isConverting := isConverting st;
      convertedPdfUri := convertedPdfUri st; error := Some errorMessage |},
   [toast (lit "Conversion Failed") errorMessage (Some (lit "destructive"))]).

(** The [try] block from the [await] of the action on, with its [catch]
    block: [outcome] is what became of the action's promise. A missing
    field is [undefined], falsy like the empty string. On a promise that
    stays pending the [await] never resumes and nothing more happens. *)
Definition afterAction (f : File) (outcome : Settled) (st : State)
    : State * list Effect :=
  match outcome with
  | Pending => (st, [])
  | Rejected reason => catchConversion (ThrownObject reason) st
  | RejectedWith e => catchConversion (ThrownError e) st
  | Fulfilled (Build_ConvertWordToPdfOutput resultPdfDataUri resultError) =>
      if truthy (default [] resultError) then
        ({| file := file st; isConverting := isConverting st;
            convertedPdfUri := convertedPdfUri st; error := resultError |},
         [toast (lit "Conversion Error") (default [] resultError)
                (Some (lit "destructive"))])
      else if truthy (default [] resultPdfDataUri) then
        ({| file := file st; isConverting := isConverting st;
            convertedPdfUri := resultPdfDataUri; error := error st |},
         [downloadDataUri (default [] resultPdfDataUri)
                          (replaceDocxSuffix (name f) ++ lit ".pdf");
          toast (lit "Conversion Successful!")
                (lit "Word document converted to PDF with full language support.")
                (Some (lit "default"))])
      else (st, [])
  end.

(** The [finally] block: [setIsConverting(false)]. *)
Definition finallyBlock (r : State * list Effect) : State * list Effect :=
  let '(st', effects) := r in
  ({| file := file st'; isConverting := false;
      convertedPdfUri := convertedPdfUri st'; error := error st' |},
   effects).

(** [handleConvert]. When the action's promise stays pending the handler
    is suspended at the [await] for ever: neither the rest of the [try]
    block nor the [finally] block runs. *)
Definition handleConvert (B : Browser) (P : Platform) (st : State)
    : State * list Effect :=
  match file st with
  | None =>
      (st, [toast (lit "No file selected")
                  (lit "Please select a .docx file to convert.")
                  (Some (lit "destructive"))])
  | Some f =>
      let started :=
        {| file := file st; isConverting := true;
           convertedPdfUri := None; error := None |} in
      let '(st', effects) :=
        match readFileAsArrayBuffer B f with
        | Throw e => finallyBlock (catchConversion (ThrownError e) started)
        | Ok arrayBuffer =>
            let docxFileBase64 := Buffer_toString_base64 B arrayBuffer in
            match convertWordToPdfAction P ThisUndefined
                    {| docxFileBase64 := docxFileBase64;
                       originalFileName := name f |} with
            | Pending => (started, [])
            | outcome => finallyBlock (afterAction f outcome started)
            end
        end in
      (st',
       toast (lit "Processing Document")
             (lit "Converting your Word document to PDF with multi-language support...")
             None
       :: effects)
  end.

End Page.

Module PageFixtures.




End PageFixtures.

(** * Properties *)

(** ** Strings *)

Lemma truthy_true_iff (s : jsstring) : truthy s = true ↔ s ≠ [].
Proof. destruct s; simpl; split; intros; congruence. Qed.

Lemma str_eqb_eq (a b : jsstring) : str_eqb a b = true ↔ a = b.
Proof. unfold str_eqb. apply bool_decide_eq_true. Qed.

Lemma trimStart_blank (s : jsstring) : blank s → trimStart s = [].
Proof.
  induction 1 as [|c s Hc _ IH]; simpl; [done|].
  by rewrite Hc.
Qed.

Lemma trimStart_nil_blank (s : jsstring) : trimStart s = [] → blank s.
Proof.
  induction s as [|c s IH]; simpl; intros H; [constructor|].
  destruct (is_whitespace c) eqn:Hc; [|done].
  apply Forall_cons. split; [done|]. by apply IH.
Qed.

Lemma trim_blank (s : jsstring) : blank s → trim s = [].
Proof. intros H. unfold trim, trimEnd. by rewrite (trimStart_blank s H). Qed.

Lemma trimStart_head (s : jsstring) c s' :
  trimStart s = c :: s' → is_whitespace c = false.
Proof.
  induction s as [|d s IH]; simpl; [done|].
  destruct (is_whitespace d) eqn:Hd; [done|].
  intros [= <- <-]. done.
Qed.

Lemma trimStart_suffix (s : jsstring) : ∃ w, blank w ∧ s = w ++ trimStart s.
Proof.
  induction s as [|c s (w & Hw & IH)]; simpl.
  - exists []. split; [constructor|done].
  - destruct (is_whitespace c) eqn:Hc.
    + exists (c :: w). split; [by constructor|]. simpl. by f_equal.
    + exists []. split; [constructor|done].
Qed.

(** [trim] gives the empty string exactly on blank strings. *)
Lemma trim_nil_iff (s : jsstring) : trim s = [] ↔ blank s.
Proof.
  split; [|apply trim_blank].
  unfold trim, trimEnd. intros H.
  destruct (trimStart s) as [|c t] eqn:Hs; [by apply trimStart_nil_blank|].
  exfalso.
  apply (f_equal (@rev Z)) in H. rewrite rev_involutive in H. simpl in H.
  apply trimStart_nil_blank in H.
  apply trimStart_head in Hs.
  assert (Hin : c ∈ rev (c :: t)).
  { rewrite list_elem_of_In, <- in_rev. by left. }
  unfold blank in H. rewrite Forall_forall in H.
  specialize (H c Hin). congruence.
Qed.

Lemma Array_from_nil_iff (s : jsstring) : Array_from s = [] ↔ s = [].
Proof.
  destruct s as [|c [|d s]]; simpl.
  - split; intros; reflexivity.
  - split; intros H; inversion H.
  - destruct (is_high_surrogate c && is_low_surrogate d);
      split; intros H; inversion H.
Qed.

Lemma textCodePoints_nil_iff (text : jsstring) :
  textCodePoints text = [] ↔ text = [].
Proof.
  unfold textCodePoints. rewrite <- (Array_from_nil_iff text).
  destruct (Array_from text); simpl.
  - split; intros; reflexivity.
  - split; intros H; inversion H.
Qed.

(** *** Examples *)

Example trim_inner_space : trim (lit "  a b  ") = lit "a b".
Proof. reflexivity. Qed.

(** An astral code point, a letter and a lone surrogate. *)
Example textCodePoints_surrogates :
  textCodePoints [0xD840; 0xDC00; 0x41; 0xD800] = [0x20000; 0x41; 0xD800].
Proof. reflexivity. Qed.

(** [a LF SP TAB LF LF b LF c]: one separator, up to its last line feed. *)
Example splitParagraphs_blank_lines :
  splitParagraphs [97; 10; 32; 9; 10; 10; 98; 10; 99] = [[97]; [98; 10; 99]].
Proof. reflexivity. Qed.

Example splitParagraphs_single_line_feed :
  splitParagraphs [97; 10; 98] = [[97; 10; 98]].
Proof. reflexivity. Qed.

Example splitParagraphs_at_the_ends :
  splitParagraphs [10; 10; 97; 10; 10] = [[]; [97]; []]
  ∧ splitParagraphs [] = [[]].
Proof. split; reflexivity. Qed.

(** Four fifths is the literal [0.8] and so does not pass the test;
    [81/100] does; [0/0] is [NaN]. *)
Example quotients_near_the_threshold :
  js_div 4 5 = literal_0_8
  ∧ js_gt (js_div 4 5) literal_0_8 = false
  ∧ js_gt (js_div 81 100) literal_0_8 = true
  ∧ js_div 0 0 = S754_nan.
Proof. repeat split; vm_compute; reflexivity. Qed.

(** ** The quotient of two counts against [0.8]

    The IEEE computation is followed step by step: both integers are
    normalised to 53-bit mantissas, the mantissas are divided after a
    shift by 53 bits, and the quotient is rounded to nearest even. For a
    denominator below [2^32] the gap between a fraction above four fifths
    and the double [0.8] is wider than the rounding error. *)

Lemma digits2_size p : digits2_pos p = Pos.size p.
Proof. induction p; simpl; congruence. Qed.

Lemma digits_bounds p :
  2 ^ (Zpos (digits2_pos p) - 1) <= Zpos p < 2 ^ Zpos (digits2_pos p).
Proof.
  rewrite digits2_size. split.
  - assert (H := Pos.size_le p).
    assert (H2 : 2 ^ Zpos (Pos.size p) <= 2 * Zpos p).
    { change (2 * Zpos p) with (Zpos p~0). rewrite <- Pos2Z.inj_pow. exact H. }
    replace (Zpos (Pos.size p)) with (Z.succ (Zpos (Pos.size p) - 1)) in H2 by lia.
    rewrite Z.pow_succ_r in H2 by lia. lia.
  - assert (H := Pos.size_gt p).
    change 2 with (Zpos 2). rewrite <- Pos2Z.inj_pow. exact H.
Qed.

Lemma digits_unique p d :
  2 ^ (d - 1) <= Zpos p < 2 ^ d -> Zpos (digits2_pos p) = d.
Proof.
  intros [Hlo Hhi]. destruct (digits_bounds p) as [Hlo' Hhi'].
  assert (0 < d).
  { destruct (Z.lt_ge_cases 0 d) as [?|Hd]; [assumption|].
    assert (2 ^ d <= 2 ^ 0) by (apply Z.pow_le_mono_r; lia).
    simpl in *. lia. }
  destruct (Z.lt_trichotomy (Zpos (digits2_pos p)) d) as [Hlt|[Heq|Hgt]]; [|exact Heq|].
  - assert (2 ^ Zpos (digits2_pos p) <= 2 ^ (d - 1)) by (apply Z.pow_le_mono_r; lia).
    lia.
  - assert (2 ^ d <= 2 ^ (Zpos (digits2_pos p) - 1)) by (apply Z.pow_le_mono_r; lia).
    lia.
Qed.

Lemma iter_xO p k : Zpos (Pos.iter xO p k) = Zpos p * 2 ^ Zpos k.
Proof.
  induction k as [|k IH] using Pos.peano_ind.
  - simpl. lia.
  - rewrite Pos.iter_succ, Pos2Z.inj_succ, Z.pow_succ_r by lia.
    change (Zpos (Pos.iter xO p k)~0) with (2 * Zpos (Pos.iter xO p k)).
    rewrite IH. lia.
Qed.

Lemma fexp_normal e : -1021 <= e -> fexp 53 1024 e = e - 53.
Proof. intros H. unfold fexp, emin. lia. Qed.

Lemma round_nearest_even_bounds mx lx :
  mx <= round_nearest_even mx lx <= mx + 1.
Proof.
  unfold round_nearest_even. destruct lx as [|[]]; try lia.
  destruct (Z.even mx); lia.
Qed.

Lemma shr_fexp_keep m e l :
  Zpos (digits2_pos m) = 53 -> -1074 <= e ->
  shr_fexp 53 1024 (Zpos m) e l = (shr_record_of_loc (Zpos m) l, e).
Proof.
  intros Hd He. unfold shr_fexp, shr. simpl Zdigits2. rewrite Hd.
  rewrite fexp_normal by lia.
  replace (53 + e - 53 - e) with 0 by lia. reflexivity.
Qed.

Lemma shr_fexp_one m e l :
  Zpos (digits2_pos m) = 54 -> -1074 <= e ->
  shr_fexp 53 1024 (Zpos m) e l = (shr_1 (shr_record_of_loc (Zpos m) l), e + 1).
Proof.
  intros Hd He. unfold shr_fexp, shr. simpl Zdigits2. rewrite Hd.
  rewrite fexp_normal by lia.
  replace (54 + e - 53 - e) with 1 by lia. reflexivity.
Qed.

Lemma loc_of_record_of_loc m l : loc_of_shr_record (shr_record_of_loc m l) = l.
Proof. destruct l as [|[]]; reflexivity. Qed.

Lemma shr_m_record_of_loc m l : shr_m (shr_record_of_loc m l) = m.
Proof. destruct l as [|[]]; reflexivity. Qed.

Lemma shr_m_shr_1 m r s :
  shr_m (shr_1 (Build_shr_record (Zpos m) r s)) = Zpos m / 2.
Proof.
  destruct m as [p|p|]; simpl.
  - rewrite Pos2Z.inj_xI. apply Z.div_unique with (r := 1); lia.
  - rewrite Pos2Z.inj_xO. apply Z.div_unique with (r := 0); lia.
  - reflexivity.
Qed.

(** The second normalisation step of [binary_round_aux]: a carry out of
    the rounding moves the exponent by one. *)
Lemma carry_step q1 e :
  2 ^ 52 <= q1 <= 2 ^ 53 -> -1074 <= e ->
  exists m e'',
    shr_fexp 53 1024 q1 e loc_Exact
    = (Build_shr_record (Zpos m) false false, e'')
    /\ ((q1 < 2 ^ 53 /\ Zpos m = q1 /\ e'' = e)
        \/ (q1 = 2 ^ 53 /\ Zpos m = 2 ^ 52 /\ e'' = e + 1)).
Proof.
  intros Hq He. destruct q1 as [|p|p]; try (simpl in Hq; lia).
  destruct (Z.eq_dec (Zpos p) (2 ^ 53)) as [Heq|Hne].
  - injection Heq as ->. exists (Z.to_pos (2 ^ 52)), (e + 1).
    rewrite shr_fexp_one by (reflexivity || lia).
    split; [reflexivity|]. right. split; [reflexivity|]. split; reflexivity.
  - exists p, e. rewrite shr_fexp_keep; [| apply digits_unique; lia | lia].
    split; [reflexivity|]. left. lia.
Qed.

Lemma round_53 q e l :
  2 ^ 52 <= Zpos q < 2 ^ 53 -> -1074 <= e <= 900 ->
  exists m e'',
    binary_round_aux 53 1024 false (Zpos q) e l = S754_finite false m e''
    /\ ((e'' = e /\ Zpos q <= Zpos m <= Zpos q + 1 /\ Zpos m < 2 ^ 53)
        \/ (e'' = e + 1 /\ Zpos m = 2 ^ 52 /\ Zpos q = 2 ^ 53 - 1)).
Proof.
  intros Hq He. unfold binary_round_aux.
  rewrite shr_fexp_keep; [| apply digits_unique; lia | lia].
  rewrite shr_m_record_of_loc, loc_of_record_of_loc.
  assert (Hr := round_nearest_even_bounds (Zpos q) l).
  destruct (carry_step (round_nearest_even (Zpos q) l) e) as (m & e'' & -> & Hc);
    [lia|lia|].
  simpl shr_m.
  replace (e'' <=? 1024 - 53) with true by (symmetry; apply Z.leb_le; lia).
  exists m, e''. split; [reflexivity|]. lia.
Qed.

Lemma round_54 q e l :
  2 ^ 53 <= Zpos q < 2 ^ 54 -> -1074 <= e <= 900 ->
  exists m e'',
    binary_round_aux 53 1024 false (Zpos q) e l = S754_finite false m e''
    /\ ((e'' = e + 1 /\ Zpos q / 2 <= Zpos m <= Zpos q / 2 + 1 /\ Zpos m < 2 ^ 53)
        \/ (e'' = e + 2 /\ Zpos m = 2 ^ 52 /\ Zpos q / 2 = 2 ^ 53 - 1)).
Proof.
  intros Hq He. unfold binary_round_aux.
  rewrite shr_fexp_one; [| apply digits_unique; lia | lia].
  destruct (shr_record_of_loc (Zpos q) l) as [mq r s] eqn:Hrec.
  assert (Hmq : mq = Zpos q).
  { rewrite <- (shr_m_record_of_loc (Zpos q) l), Hrec. reflexivity. }
  subst mq.
  assert (Hhalf := shr_m_shr_1 q r s).
  assert (Hdiv : 2 ^ 52 <= Zpos q / 2 < 2 ^ 53).
  { change (2 ^ 52) with 4503599627370496.
    change (2 ^ 53) with 9007199254740992 in *.
    change (2 ^ 54) with 18014398509481984 in *.
    split.
    - apply Z.div_le_lower_bound; clear - Hq; lia.
    - apply Z.div_lt_upper_bound; clear - Hq; lia. }
  set (mrs := shr_1 {| shr_m := Zpos q; shr_r := r; shr_s := s |}) in *.
  rewrite Hhalf.
  assert (Hr := round_nearest_even_bounds (Zpos q / 2) (loc_of_shr_record mrs)).
  destruct (carry_step (round_nearest_even (Zpos q / 2) (loc_of_shr_record mrs)) (e + 1))
    as (m & e'' & -> & Hc); [lia|lia|].
  simpl shr_m.
  replace (e'' <=? 1024 - 53) with true by (symmetry; apply Z.leb_le; lia).
  exists m, e''. split; [reflexivity|]. lia.
Qed.

Lemma round_exact q e :
  2 ^ 52 <= Zpos q < 2 ^ 53 -> -1074 <= e <= 900 ->
  binary_round_aux 53 1024 false (Zpos q) e loc_Exact = S754_finite false q e.
Proof.
  intros Hq He. unfold binary_round_aux.
  rewrite shr_fexp_keep; [| apply digits_unique; lia | lia].
  simpl. rewrite shr_fexp_keep; [| apply digits_unique; lia | lia].
  simpl. replace (e <=? 1024 - 53) with true by (symmetry; apply Z.leb_le; lia).
  reflexivity.
Qed.

(** An integer below [2^53] is a double: its digits, shifted up to 53
    bits. *)
Lemma number_of_pos p :
  Zpos p < 2 ^ 53 ->
  exists M,
    number_of_Z (Zpos p) = S754_finite false M (Zpos (digits2_pos p) - 53)
    /\ Zpos M = Zpos p * 2 ^ (53 - Zpos (digits2_pos p))
    /\ 2 ^ 52 <= Zpos M < 2 ^ 53.
Proof.
  intros Hp. destruct (digits_bounds p) as [Hlo Hhi].
  set (d := Zpos (digits2_pos p)) in *.
  assert (Hd : 1 <= d <= 53).
  { split; [unfold d; lia|].
    destruct (Z.le_gt_cases d 53) as [?|Hgt]; [assumption|].
    assert (2 ^ 53 <= 2 ^ (d - 1)) by (apply Z.pow_le_mono_r; lia). lia. }
  unfold number_of_Z, binary_normalize, binary_round, shl_align.
  fold d. rewrite fexp_normal by lia.
  destruct (d + 0 - 53 - 0) as [|k|k] eqn:Hk; try lia.
  - assert (d = 53) as Hd53 by lia. rewrite Hd53 in *.
    exists p. rewrite round_exact by lia.
    replace (53 + 0 - 53) with (53 - 53) by lia.
    split; [reflexivity|]. split; [simpl; lia|]. simpl in Hlo. lia.
  - assert (Hk' : Zpos k = 53 - d) by lia.
    assert (HM : Zpos (Pos.iter xO p k) = Zpos p * 2 ^ (53 - d)).
    { rewrite iter_xO, Hk'. reflexivity. }
    assert (Hrange : 2 ^ 52 <= Zpos (Pos.iter xO p k) < 2 ^ 53).
    { rewrite HM.
      replace (2 ^ 52) with (2 ^ (d - 1) * 2 ^ (53 - d))
        by (rewrite <- Z.pow_add_r by lia; f_equal; lia).
      replace (2 ^ 53) with (2 ^ d * 2 ^ (53 - d))
        by (rewrite <- Z.pow_add_r by lia; f_equal; lia).
      assert (0 < 2 ^ (53 - d)) by (apply Z.pow_pos_nonneg; lia).
      split; [apply Z.mul_le_mono_nonneg_r; lia | apply Z.mul_lt_mono_pos_r; lia]. }
    exists (Pos.iter xO p k). rewrite round_exact by lia.
    replace (d + 0 - 53) with (d - 53) by lia.
    split; [reflexivity|]. split; assumption.
Qed.

(** The quotient of two doubles with 53-bit mantissas: the integer
    quotient of the mantissas (after a shift by 53 bits), rounded, with
    one more bit dropped when it has 54 bits and the exponent moved on a
    carry. *)
Lemma div_normalized M1 e1 M2 e2 :
  2 ^ 52 <= Zpos M1 < 2 ^ 53 ->
  2 ^ 52 <= Zpos M2 < 2 ^ 53 ->
  -200 <= e1 - e2 <= 200 ->
  exists m e,
    SFdiv 53 1024 (S754_finite false M1 e1) (S754_finite false M2 e2)
    = S754_finite false m e
    /\ let Q := Zpos M1 * 2 ^ 53 / Zpos M2 in
       (Zpos M1 < Zpos M2
        /\ ((e = e1 - e2 - 53 /\ Q <= Zpos m <= Q + 1 /\ Zpos m < 2 ^ 53)
            \/ (e = e1 - e2 - 52 /\ Zpos m = 2 ^ 52 /\ Q = 2 ^ 53 - 1)))
       \/ (Zpos M2 <= Zpos M1
           /\ ((e = e1 - e2 - 52 /\ Q / 2 <= Zpos m <= Q / 2 + 1 /\ Zpos m < 2 ^ 53)
               \/ (e = e1 - e2 - 51 /\ Zpos m = 2 ^ 52 /\ Q / 2 = 2 ^ 53 - 1))).
Proof.
  intros H1 H2 He.
  unfold SFdiv, SFdiv_core_binary. simpl Zdigits2.
  rewrite (digits_unique M1 53), (digits_unique M2 53) by lia.
  rewrite fexp_normal by lia.
  replace (Z.min (53 + e1 - (53 + e2) - 53) (e1 - e2)) with (e1 - e2 - 53) by lia.
  replace (e1 - e2 - (e1 - e2 - 53)) with 53 by lia.
  rewrite Z.shiftl_mul_pow2 by lia.
  set (a := Zpos M1 * 2 ^ 53).
  assert (Hq : Z.div_eucl a (Zpos M2) = (a / Zpos M2, a mod Zpos M2)).
  { unfold Z.div, Z.modulo. destruct (Z.div_eucl a (Zpos M2)). reflexivity. }
  rewrite Hq. simpl xorb.
  set (Q := a / Zpos M2).
  change (2 ^ 52) with 4503599627370496 in *.
  change (2 ^ 53) with 9007199254740992 in *.
  destruct (Z.lt_ge_cases (Zpos M1) (Zpos M2)) as [Hlt|Hge].
  - assert (HQ : 4503599627370496 <= Q < 9007199254740992).
    { unfold Q, a. split.
      - apply Z.div_le_lower_bound; lia.
      - apply Z.div_lt_upper_bound; lia. }
    destruct Q as [|q|q] eqn:HQeq; try lia.
    destruct (round_53 q (e1 - e2 - 53) (new_location (Zpos M2) (a mod Zpos M2)))
      as (m & e & -> & Hr).
    { change (2 ^ 52) with 4503599627370496.
      change (2 ^ 53) with 9007199254740992. lia. }
    { lia. }
    exists m, e. split; [reflexivity|].
    change (2 ^ 52) with 4503599627370496 in *.
    change (2 ^ 53) with 9007199254740992 in *.
    left. split; [assumption|]. lia.
  - assert (HQ : 9007199254740992 <= Q < 18014398509481984).
    { unfold Q, a. split.
      - apply Z.div_le_lower_bound; lia.
      - apply Z.div_lt_upper_bound; lia. }
    destruct Q as [|q|q] eqn:HQeq; try lia.
    destruct (round_54 q (e1 - e2 - 53) (new_location (Zpos M2) (a mod Zpos M2)))
      as (m & e & -> & Hr).
    { change (2 ^ 54) with 18014398509481984.
      change (2 ^ 53) with 9007199254740992. lia. }
    { lia. }
    exists m, e. split; [reflexivity|].
    change (2 ^ 52) with 4503599627370496 in *.
    change (2 ^ 53) with 9007199254740992 in *.
    right. split; [assumption|]. lia.
Qed.

Lemma gt_0_8_finite m e :
  js_gt (S754_finite false m e) literal_0_8
  = if e <? -53 then false
    else if -53 <? e then true
    else 7205759403792794 <? Zpos m.
Proof.
  unfold js_gt, SFltb, literal_0_8, SFcompare.
  destruct (Z.compare_spec (-53) e) as [Heq|Hlt|Hgt].
  - subst e. simpl. unfold Z.ltb. simpl.
    change (Pos.compare_cont Eq 7205759403792794 m)
      with (Pos.compare 7205759403792794 m).
    destruct (Pos.compare 7205759403792794 m); reflexivity.
  - replace (e <? -53) with false by (symmetry; apply Z.ltb_ge; lia).
    replace (-53 <? e) with true by (symmetry; apply Z.ltb_lt; lia).
    reflexivity.
  - replace (e <? -53) with true by (symmetry; apply Z.ltb_lt; lia).
    reflexivity.
Qed.

(** The 53-bit quotient [s * 2^53 / n] against the mantissa of the double
    [0.8], for a denominator below [2^32]. *)
Lemma quotient_vs_threshold s n :
  0 <= s -> 0 < n < 2 ^ 32 ->
  let Q := s * 2 ^ 53 / n in
  (4 * n < 5 * s -> 7205759403792794 + 1 <= Q)
  /\ (5 * s <= 4 * n -> Q <= 7205759403792794 - 1)
  /\ (Q = 2 ^ 53 - 1 -> 4 * n < 5 * s).
Proof.
  intros Hs Hn Q. unfold Q.
  change (2 ^ 53) with 9007199254740992.
  change (2 ^ 32) with 4294967296 in Hn.
  split; [|split].
  - intros H. apply Z.div_le_lower_bound; lia.
  - intros H.
    assert (s * 9007199254740992 / n < 7205759403792794); [|lia].
    apply Z.div_lt_upper_bound; lia.
  - intros H.
    assert (Hm := Z.mul_div_le (s * 9007199254740992) n ltac:(lia)).
    rewrite H in Hm. lia.
Qed.

(** For counts [0 <= s <= n] with [0 < n < 2^32], the IEEE test
    [s / n > 0.8] is the exact comparison of [s / n] with four fifths. *)
Lemma threshold_exact s n :
  0 <= s <= n -> 0 < n < 2 ^ 32 ->
  js_gt (js_div s n) literal_0_8 = (4 * n <? 5 * s).
Proof.
  intros Hs Hn. unfold js_div.
  assert (Hn53 : n < 2 ^ 53).
  { change (2 ^ 32) with 4294967296 in Hn.
    change (2 ^ 53) with 9007199254740992. lia. }
  destruct n as [|pn|pn]; try lia.
  destruct (number_of_pos pn Hn53) as (M2 & -> & HM2 & HM2r).
  destruct s as [|ps|ps]; try lia.
  { (* 0 / n *)
    simpl. symmetry. apply Z.ltb_ge. lia. }
  assert (Hs53 : Zpos ps < 2 ^ 53) by lia.
  destruct (number_of_pos ps Hs53) as (M1 & -> & HM1 & HM1r).
  destruct (digits_bounds ps) as [Hlo1 Hhi1].
  destruct (digits_bounds pn) as [Hlo2 Hhi2].
  set (d1 := Zpos (digits2_pos ps)) in *.
  set (d2 := Zpos (digits2_pos pn)) in *.
  assert (Hd1 : 1 <= d1) by (unfold d1; lia).
  assert (Hd12 : d1 <= d2).
  { destruct (Z.le_gt_cases d1 d2) as [?|Hgt]; [assumption|].
    assert (2 ^ d2 <= 2 ^ (d1 - 1)) by (apply Z.pow_le_mono_r; lia). lia. }
  assert (Hd2 : d2 <= 32).
  { destruct (Z.le_gt_cases d2 32) as [?|Hgt]; [assumption|].
    assert (2 ^ 32 <= 2 ^ (d2 - 1)) by (apply Z.pow_le_mono_r; lia). lia. }
  set (dl := d2 - d1).
  set (K := 2 ^ (53 - d2)) in *.
  assert (HK : 0 < K) by (apply Z.pow_pos_nonneg; lia).
  assert (HM1' : Zpos M1 = Zpos ps * 2 ^ dl * K).
  { rewrite HM1. unfold K, dl. rewrite <- Z.mul_assoc, <- Z.pow_add_r by lia.
    do 2 f_equal. lia. }
  assert (HQ : Zpos M1 * 2 ^ 53 / Zpos M2 = Zpos ps * 2 ^ dl * 2 ^ 53 / Zpos pn).
  { rewrite HM1', HM2.
    replace (Zpos ps * 2 ^ dl * K * 2 ^ 53) with (Zpos ps * 2 ^ dl * 2 ^ 53 * K) by lia.
    apply Z.div_mul_cancel_r; lia. }
  assert (Hlt_iff : Zpos M1 < Zpos M2 <-> Zpos ps * 2 ^ dl < Zpos pn).
  { rewrite HM1', HM2. symmetry. apply Z.mul_lt_mono_pos_r. assumption. }
  destruct (div_normalized M1 (d1 - 53) M2 (d2 - 53) HM1r HM2r ltac:(lia))
    as (m & e & -> & Hres).
  cbv zeta in Hres. rewrite HQ in Hres. rewrite Hlt_iff in Hres.
  assert (Hge_iff : Zpos M2 <= Zpos M1 <-> Zpos pn <= Zpos ps * 2 ^ dl) by lia.
  rewrite Hge_iff in Hres. clear Hlt_iff Hge_iff HQ HM1' HM1 HM2 HM1r HM2r.
  rewrite gt_0_8_finite.
  replace (d1 - 53 - (d2 - 53)) with (- dl) in Hres by (unfold dl; lia).
  assert (Hdl : 0 <= dl) by (unfold dl; lia).
  destruct (quotient_vs_threshold (Zpos ps) (Zpos pn) ltac:(lia) Hn) as (Hup & Hdown & Hcarry).
  cbv zeta in Hup, Hdown, Hcarry.
  change (2 ^ 52) with 4503599627370496 in *.
  destruct (Z.eq_dec dl 0) as [H0|Hn0]; [|destruct (Z.eq_dec dl 1) as [H1|Hn1]].
  - (* same number of digits *)
    rewrite H0 in Hres. change (2 ^ 0) with 1 in Hres. rewrite Z.mul_1_r in Hres.
    set (Q := Zpos ps * 2 ^ 53 / Zpos pn) in *.
    destruct (Z.ltb_spec (4 * Zpos pn) (5 * Zpos ps)) as [H45|H45].
    + specialize (Hup H45).
      destruct Hres as [[_ [(-> & Hm & _)|(-> & _ & _)]]|[_ [(-> & _)|(-> & _)]]];
        simpl; try reflexivity.
      apply Z.ltb_lt. lia.
    + specialize (Hdown H45).
      change (2 ^ 53) with 9007199254740992 in *.
      destruct Hres as [[_ [(-> & Hm & _)|(-> & _ & HQ)]]|[Hge _]]; [| lia | lia].
      simpl. apply Z.ltb_ge. lia.
  - (* one digit fewer in the numerator *)
    rewrite H1 in Hres. change (2 ^ 1) with 2 in Hres.
    replace (Zpos ps * 2 * 2 ^ 53 / Zpos pn / 2) with (Zpos ps * 2 ^ 53 / Zpos pn) in Hres.
    2:{ rewrite Z.div_div by lia.
        replace (Zpos ps * 2 * 2 ^ 53) with (Zpos ps * 2 ^ 53 * 2) by lia.
        symmetry. apply Z.div_mul_cancel_r; lia. }
    set (Q := Zpos ps * 2 ^ 53 / Zpos pn) in *.
    destruct (Z.ltb_spec (4 * Zpos pn) (5 * Zpos ps)) as [H45|H45].
    + specialize (Hup H45).
      destruct Hres as [[Hlt _]|[_ [(-> & Hm & _)|(-> & _ & _)]]];
        [lia| |reflexivity].
      simpl. apply Z.ltb_lt. lia.
    + specialize (Hdown H45).
      change (2 ^ 53) with 9007199254740992 in *.
      destruct Hres as [[_ [(-> & _)|(-> & -> & _)]]|[_ [(-> & Hm & _)|(_ & _ & HQ)]]];
        [reflexivity|reflexivity| |lia].
      simpl. apply Z.ltb_ge. lia.
  - (* at least two digits fewer: the quotient is below one half *)
    assert (Hdl2 : 2 <= dl) by lia.
    assert (H4 : 4 <= 2 ^ dl).
    { change 4 with (2 ^ 2). apply Z.pow_le_mono_r; lia. }
    assert (Hhalf : Zpos ps * 2 ^ dl < 2 * Zpos pn).
    { assert (Zpos ps * 2 ^ dl < 2 ^ d1 * 2 ^ dl)
        by (apply Z.mul_lt_mono_pos_r; lia).
      assert (2 ^ d1 * 2 ^ dl = 2 ^ d2)
        by (rewrite <- Z.pow_add_r by lia; f_equal; unfold dl; lia).
      assert (2 ^ d2 = 2 * 2 ^ (d2 - 1)).
      { rewrite <- Z.pow_succ_r by lia. f_equal. lia. }
      lia. }
    assert (Hsmall : 2 * Zpos ps < Zpos pn) by nia.
    replace (4 * Zpos pn <? 5 * Zpos ps) with false
      by (symmetry; apply Z.ltb_ge; lia).
    destruct Hres as [[_ [(-> & _)|(-> & _)]]|[_ [(-> & _)|(-> & -> & _)]]].
    + replace (- dl - 53 <? -53) with true by (symmetry; apply Z.ltb_lt; lia).
      reflexivity.
    + replace (- dl - 52 <? -53) with true by (symmetry; apply Z.ltb_lt; lia).
      reflexivity.
    + replace (- dl - 52 <? -53) with true by (symmetry; apply Z.ltb_lt; lia).
      reflexivity.
    + destruct (Z.ltb_spec (- dl - 51) (-53)); [reflexivity|].
      replace (-53 <? - dl - 51) with false by (symmetry; apply Z.ltb_ge; lia).
      reflexivity.
Qed.

(** ** The coverage test *)

Lemma isCodePointSupported_spec cp ranges :
  isCodePointSupported cp ranges = true ↔ in_ranges ranges cp.
Proof.
  unfold isCodePointSupported, in_ranges.
  rewrite existsb_exists. split.
  - intros (r & Hin & Hr). exists r. rewrite list_elem_of_In.
    apply andb_true_iff in Hr as [?%Z.leb_le ?%Z.leb_le]. done.
  - intros (r & Hin & Hr). exists r. rewrite <- list_elem_of_In.
    split; [done|]. apply andb_true_iff. split; apply Z.leb_le; lia.
Qed.

Lemma supportedChars_from (n : Z) cps ranges :
  foldl (λ n cp, if isCodePointSupported cp ranges then n + 1 else n) n cps
  = n + Z.of_nat (length (filter (in_ranges ranges) cps)).
Proof.
  revert n. induction cps as [|cp cps IH]; intros n; simpl; [lia|].
  rewrite IH. rewrite filter_cons.
  destruct (isCodePointSupported cp ranges) eqn:Hs.
  - apply isCodePointSupported_spec in Hs. rewrite decide_True by done.
    simpl. lia.
  - rewrite decide_False; [done|].
    intros Hin. apply isCodePointSupported_spec in Hin. congruence.
Qed.

(** The counting loop counts the covered code points. *)
Lemma supportedChars_covered cfg text :
  supportedChars (textCodePoints text) (unicodeRanges cfg)
  = Z.of_nat (covered cfg text).
Proof. unfold supportedChars, covered. by rewrite supportedChars_from. Qed.

Lemma covered_le cfg text : (covered cfg text ≤ length (textCodePoints text))%nat.
Proof. unfold covered. apply length_filter. Qed.

Lemma Qdiv_gt_iff (s n : Z) :
  0 < n → (8 # 10 < Qmake s 1 / Qmake n 1)%Q ↔ 4 * n < 5 * s.
Proof.
  intros Hn. destruct n as [|p|p]; try lia.
  unfold Qdiv, Qinv, Qmult, Qlt. simpl. lia.
Qed.

(** On a non-empty array shorter than [2^32] the test
    [supportedChars / length > 0.8] is the exact comparison of the
    fraction with four fifths. *)
Lemma js_gt_div_iff (s n : Z) :
  0 <= s <= n → 0 < n < 2 ^ 32 →
  js_gt (js_div s n) literal_0_8 = true ↔ 4 * n < 5 * s.
Proof.
  intros Hs Hn. rewrite threshold_exact by done. apply Z.ltb_lt.
Qed.

(** On the empty array the quotient is [NaN] and the test fails. *)
Lemma js_gt_div_zero : js_div 0 0 = S754_nan ∧ js_gt (js_div 0 0) literal_0_8 = false.
Proof. split; reflexivity. Qed.

Lemma clears_iff cfg text :
  text ≠ [] →
  clears cfg text
  ↔ 4 * Z.of_nat (length (textCodePoints text)) < 5 * Z.of_nat (covered cfg text).
Proof.
  intros Hne. unfold clears, coverage. apply Qdiv_gt_iff.
  rewrite <- textCodePoints_nil_iff in Hne.
  destruct (textCodePoints text); simpl; [done|lia].
Qed.

(** The test of the priority loop, on a non-empty text that fits an
    array, is [clears]. *)
Lemma threshold_test_clears cfg text :
  text ≠ [] →
  fits_array text →
  js_gt (js_div (supportedChars (textCodePoints text) (unicodeRanges cfg))
                (Z.of_nat (length (textCodePoints text)))) literal_0_8 = true
  ↔ clears cfg text.
Proof.
  intros Hne Hfits. rewrite clears_iff, supportedChars_covered by done.
  assert (Hle := covered_le cfg text).
  apply js_gt_div_iff; [lia|]. split; [|exact Hfits].
  rewrite <- textCodePoints_nil_iff in Hne.
  destruct (textCodePoints text); simpl; [done|lia].
Qed.

(** ** Font loading *)

Section Loading.

Variable P : Platform.

Lemma loadFont_loaded fm cfg :
  loadFont P fm cfg =
  match loaded P cfg with
  | Some b => {| loadedFonts := <[name cfg := b]> (loadedFonts fm);
                 fontPriority := fontPriority fm ++ [name cfg] |}
  | None => fm
  end.
Proof.
  unfold loadFont, loaded.
  destruct (existsSync P _); [|done].
  destruct (readFileSync P _); done.
Qed.

(** The priority list grows by the names of the fonts that load, in the
    order of the catalog. *)
Lemma foldl_loadFont_priority (l : list FontConfigEntry) fm :
  fontPriority (foldl (loadFont P) fm l)
  = fontPriority fm ++ (name <$> filter (λ c, is_Some (loaded P c)) l).
Proof.
  revert fm. induction l as [|c l IH]; intros fm; simpl.
  - by rewrite app_nil_r.
  - rewrite IH, loadFont_loaded, filter_cons.
    destruct (decide (is_Some (loaded P c))) as [[b Hb]|Hn].
    + rewrite Hb. simpl. by rewrite <- app_assoc.
    + destruct (loaded P c) eqn:Hc; [|done]. exfalso. apply Hn. by eexists.
Qed.

(** The map gains the bytes of each font that loads, under its name. *)
Lemma foldl_loadFont_lookup (l : list FontConfigEntry) fm n :
  NoDup (name <$> l) →
  loadedFonts (foldl (loadFont P) fm l) !! n
  = match find (λ f, str_eqb (name f) n) l with
    | Some c =>
        match loaded P c with
        | Some b => Some b
        | None => loadedFonts fm !! n
        end
    | None => loadedFonts fm !! n
    end.
Proof.
  revert fm. induction l as [|c l IH]; intros fm Hnd; simpl; [done|].
  rewrite fmap_cons in Hnd. apply NoDup_cons in Hnd as [Hc Hnd].
  rewrite IH by done. rewrite loadFont_loaded.
  destruct (str_eqb (name c) n) eqn:Heq.
  - apply str_eqb_eq in Heq. subst n.
    assert (Hnone : find (λ f, str_eqb (name f) (name c)) l = None).
    { destruct (find _ l) as [c'|] eqn:Hf; [|done].
      apply find_some in Hf as [Hin Hn]. apply str_eqb_eq in Hn.
      exfalso. apply Hc. rewrite <- Hn.
      apply list_elem_of_fmap_2. by apply list_elem_of_In. }
    rewrite Hnone. destruct (loaded P c); simpl; [|done].
    by rewrite lookup_insert_eq.
  - assert (Hne : name c ≠ n).
    { intros Hn. apply str_eqb_eq in Hn. congruence. }
    destruct (find _ l) as [c'|].
    + destruct (loaded P c'); [done|].
      destruct (loaded P c); simpl; [|done]. by rewrite lookup_insert_ne.
    + destruct (loaded P c); simpl; [|done]. by rewrite lookup_insert_ne.
Qed.

Lemma FONT_CONFIG_NoDup : NoDup (name <$> FONT_CONFIG).
Proof. apply (bool_decide_unpack _). by vm_compute. Qed.

Lemma new_FontManager_priority :
  fontPriority (new_FontManager P)
  = name <$> filter (λ c, is_Some (loaded P c)) FONT_CONFIG.
Proof. unfold new_FontManager, loadAvailableFonts. by rewrite foldl_loadFont_priority. Qed.

Lemma new_FontManager_lookup n :
  loadedFonts (new_FontManager P) !! n = findConfig n ≫= loaded P.
Proof.
  unfold new_FontManager, loadAvailableFonts.
  rewrite foldl_loadFont_lookup by apply FONT_CONFIG_NoDup.
  unfold findConfig. simpl loadedFonts. rewrite lookup_empty.
  destruct (find _ FONT_CONFIG) as [c|]; simpl; [|done].
  by destruct (loaded P c).
Qed.

Lemma findConfig_name cfg : cfg ∈ FONT_CONFIG → findConfig (name cfg) = Some cfg.
Proof.
  unfold FONT_CONFIG. rewrite !elem_of_cons, elem_of_nil.
  intros [->|[->|[]]]; by vm_compute.
Qed.

Lemma findConfig_Some n cfg :
  findConfig n = Some cfg → cfg ∈ FONT_CONFIG ∧ name cfg = n.
Proof.
  unfold findConfig. intros H. apply find_some in H as [Hin Hn].
  split; [by apply list_elem_of_In | by apply str_eqb_eq].
Qed.

(** Every name of the priority list is the name of a catalog font that
    loaded, and the map holds that font's bytes under it. *)
Lemma priority_elem n :
  n ∈ fontPriority (new_FontManager P) →
  ∃ cfg b, cfg ∈ FONT_CONFIG ∧ name cfg = n ∧ loaded P cfg = Some b
           ∧ loadedFonts (new_FontManager P) !! n = Some b.
Proof.
  rewrite new_FontManager_priority.
  intros (cfg & -> & Hin)%list_elem_of_fmap_1.
  apply list_elem_of_filter in Hin as [[b Hb] Hin].
  exists cfg, b. repeat split; try done.
  by rewrite new_FontManager_lookup, findConfig_name, <- Hb.
Qed.

(** Every entry of the map is a catalog font that loaded, and its name is
    on the priority list. *)
Lemma lookup_loaded n b :
  loadedFonts (new_FontManager P) !! n = Some b →
  ∃ cfg, cfg ∈ FONT_CONFIG ∧ name cfg = n ∧ loaded P cfg = Some b
         ∧ n ∈ fontPriority (new_FontManager P).
Proof.
  rewrite new_FontManager_lookup.
  destruct (findConfig n) as [cfg|] eqn:Hf; simpl; [|done].
  intros Hb. apply findConfig_Some in Hf as [Hin Hn].
  exists cfg. repeat split; try done.
  rewrite new_FontManager_priority, <- Hn.
  apply list_elem_of_fmap_2, list_elem_of_filter. split; [by eexists|done].
Qed.

Lemma priority_nil_empty :
  fontPriority (new_FontManager P) = [] → loadedFonts (new_FontManager P) = ∅.
Proof.
  intros Hnil. apply map_empty. intros n.
  destruct (loadedFonts (new_FontManager P) !! n) as [b|] eqn:Hb; [|done].
  apply lookup_loaded in Hb as (_ & _ & _ & _ & Hin).
  rewrite Hnil in Hin. by apply elem_of_nil in Hin.
Qed.

End Loading.

(** ** Font selection *)

Section Selection.

Variable fm : FontManager.
Variable text : jsstring.
Hypothesis text_nonempty : text ≠ [].
Hypothesis text_fits : fits_array text.

(** The loop returns at the first name whose font clears the threshold. *)
Lemma priorityLoop_first (names : list jsstring) i n cfg :
  names !! i = Some n →
  findConfig n = Some cfg →
  clears cfg text →
  (∀ j n' cfg', (j < i)%nat → names !! j = Some n' →
                findConfig n' = Some cfg' → ¬ clears cfg' text) →
  priorityLoop fm (textCodePoints text) names = Some (loadedFonts fm !! n).
Proof.
  revert i. induction names as [|m names IH]; intros i Hi Hf Hc Hbefore; [done|].
  destruct i as [|i]; simpl in *.
  - injection Hi as ->. rewrite Hf.
    apply threshold_test_clears in Hc; [|done|done]. by rewrite Hc.
  - assert (Hrest : priorityLoop fm (textCodePoints text) names
                    = Some (loadedFonts fm !! n)).
    { apply (IH i); try done.
      intros j n' cfg' Hj. apply (Hbefore (S j)). lia. }
    destruct (findConfig m) as [cfgm|] eqn:Hm; [|done].
    destruct (js_gt _ _) eqn:Hgt; [|done].
    exfalso. apply (Hbefore 0%nat m cfgm); [lia|done|done|].
    by apply threshold_test_clears.
Qed.

(** The loop falls through when no listed font clears the threshold. *)
Lemma priorityLoop_none (names : list jsstring) :
  (∀ n cfg, n ∈ names → findConfig n = Some cfg → ¬ clears cfg text) →
  priorityLoop fm (textCodePoints text) names = None.
Proof.
  induction names as [|m names IH]; intros Hno; simpl; [done|].
  rewrite IH by (intros n cfg Hin; apply Hno; by right).
  destruct (findConfig m) as [cfgm|] eqn:Hm; [|done].
  destruct (js_gt _ _) eqn:Hgt; [|done].
  exfalso. apply (Hno m cfgm); [by left|done|].
  by apply threshold_test_clears.
Qed.

End Selection.

(** On the empty text no font passes the test: every quotient is [NaN]. *)
Lemma priorityLoop_empty_text fm (names : list jsstring) :
  priorityLoop fm (textCodePoints []) names = None.
Proof.
  change (textCodePoints []) with (@nil Z).
  induction names as [|m names IH]; cbn [priorityLoop]; [done|].
  destruct (findConfig m); [|done].
  change (supportedChars [] (unicodeRanges f)) with 0.
  change (Z.of_nat (length (@nil Z))) with 0.
  by rewrite (proj2 js_gt_div_zero).
Qed.

Lemma size_lookup_nonzero (m : gmap jsstring Buffer) k b :
  m !! k = Some b → (size m =? 0)%nat = false.
Proof.
  intros Hk. apply Nat.eqb_neq. apply map_size_ne_0_lookup. by exists k, b.
Qed.

(** What [getBestFontForText] returns is in the map. *)
Lemma getBestFontForText_lookup fm text b :
  getBestFontForText fm text = Some b → ∃ n, loadedFonts fm !! n = Some b.
Proof.
  unfold getBestFontForText.
  destruct (size (loadedFonts fm) =? 0)%nat; [done|].
  generalize (textCodePoints text). intros cps.
  assert (Hloop : ∀ names r, priorityLoop fm cps names = Some r →
                             r = None ∨ ∃ n, r = loadedFonts fm !! n).
  { induction names as [|m names IH]; intros r; simpl; [done|].
    destruct (findConfig m); [|apply IH].
    destruct (js_gt _ _); [|apply IH].
    intros [= <-]. right. by exists m. }
  destruct (priorityLoop fm cps (fontPriority fm)) as [r|] eqn:Hr.
  - intros ->. apply Hloop in Hr as [[=]|[n Hn]]. by exists n.
  - destruct (fontPriority fm !! 0%nat) as [first|]; [|done].
    destruct (truthy first); [|done]. intros H. by exists first.
Qed.

(** With the threshold cleared first at [cfg], the manager built on [P]
    returns the bytes loaded for [cfg]. *)
Lemma select_first_clearing P text i cfg :
  text ≠ [] →
  fits_array text →
  cfg ∈ FONT_CONFIG →
  fontPriority (new_FontManager P) !! i = Some (name cfg) →
  clears cfg text →
  (∀ j cfg', (j < i)%nat → cfg' ∈ FONT_CONFIG →
             fontPriority (new_FontManager P) !! j = Some (name cfg') →
             ¬ clears cfg' text) →
  ∃ b, loaded P cfg = Some b
       ∧ getBestFontForText (new_FontManager P) text = Some b.
Proof.
  intros Hne Hfits Hcfg Hi Hc Hbefore.
  destruct (priority_elem P (name cfg)) as (cfg0 & b & Hin0 & Hn0 & Hl0 & Hb).
  { by apply list_elem_of_lookup_2 in Hi. }
  assert (cfg0 = cfg) as ->.
  { apply findConfig_name in Hin0. rewrite Hn0 in Hin0.
    rewrite (findConfig_name cfg Hcfg) in Hin0. congruence. }
  exists b. split; [done|].
  unfold getBestFontForText.
  rewrite (size_lookup_nonzero _ _ _ Hb).
  rewrite (priorityLoop_first _ text Hne Hfits _ i (name cfg) cfg); try done.
  - by apply findConfig_name.
  - intros j n' cfg' Hj Hn' Hf'.
    apply findConfig_Some in Hf' as [Hin' <-]. by apply (Hbefore j).
Qed.

Lemma FONT_CONFIG_names_truthy cfg : cfg ∈ FONT_CONFIG → truthy (name cfg) = true.
Proof.
  unfold FONT_CONFIG. rewrite !elem_of_cons, elem_of_nil.
  intros [->|[->|[]]]; reflexivity.
Qed.

Lemma filter_all_length {A} (Q : A → Prop) `{∀ x, Decision (Q x)} (l : list A) :
  Forall Q l → length (filter Q l) = length l.
Proof.
  induction 1 as [|x l Hx _ IH]; [done|].
  rewrite filter_cons, decide_True by done. simpl. by rewrite IH.
Qed.

Section Constructed.

Variable P : Platform.

(** When the loop falls through, the head of the priority list is
    returned: a catalog font that loaded. *)
Lemma fallback_first text first rest :
  fontPriority (new_FontManager P) = first :: rest →
  priorityLoop (new_FontManager P) (textCodePoints text)
               (fontPriority (new_FontManager P)) = None →
  ∃ cfg b, cfg ∈ FONT_CONFIG ∧ name cfg = first ∧ loaded P cfg = Some b
           ∧ getBestFontForText (new_FontManager P) text = Some b.
Proof.
  intros Hp Hloop.
  destruct (priority_elem P first) as (cfg & b & Hin & Hn & Hl & Hb).
  { rewrite Hp. by left. }
  exists cfg, b. repeat split; try done.
  unfold getBestFontForText.
  rewrite (size_lookup_nonzero _ _ _ Hb), Hloop, Hp. simpl.
  rewrite <- Hn, (FONT_CONFIG_names_truthy cfg Hin), Hn. done.
Qed.

Lemma no_fonts_sentinel text :
  fontPriority (new_FontManager P) = [] →
  getBestFontForText (new_FontManager P) text = None.
Proof.
  intros Hp. unfold getBestFontForText.
  rewrite (priority_nil_empty P Hp), map_size_empty. done.
Qed.

Lemma nothing_loaded_priority_nil :
  (∀ cfg, cfg ∈ FONT_CONFIG → loaded P cfg = None) →
  fontPriority (new_FontManager P) = [].
Proof.
  intros Hnone. rewrite new_FontManager_priority.
  destruct (filter _ FONT_CONFIG) as [|c l] eqn:Hf; [done|].
  assert (Hc : c ∈ filter (λ c, is_Some (loaded P c)) FONT_CONFIG).
  { rewrite Hf. by left. }
  apply list_elem_of_filter in Hc as [[b Hb] Hin].
  rewrite (Hnone c Hin) in Hb. done.
Qed.

Lemma both_loaded_priority cjk latin :
  loaded P NotoSansSC = Some cjk →
  loaded P DejaVuSans = Some latin →
  fontPriority (new_FontManager P) = [name NotoSansSC; name DejaVuSans].
Proof.
  intros H1 H2. rewrite new_FontManager_priority. unfold FONT_CONFIG.
  rewrite !filter_cons, filter_nil, H1, H2.
  rewrite !decide_True by by eexists. done.
Qed.

End Constructed.

(** ** Selection theorems *)

(** C3. On a non-empty text (of fewer than [2^32] code points, as any
    text whose code points fit an array), [getBestFontForText] returns the
    first font
    in priority order whose coverage fraction strictly exceeds 0.8,
    whatever the coverage of later fonts. In particular: with both fonts
    loaded, the CJK font heads the priority list and is selected for a
    text of 90% CJK-range code points and 10% code points of the Latin
    font; and a text lying entirely in the ranges of one loaded font
    selects that font when no earlier font clears the threshold. *)
Theorem first_clearing_font_selected (P : Platform) (text : jsstring) :
  text ≠ [] →
  fits_array text →
  let fm := new_FontManager P in
  (∀ i cfg,
     cfg ∈ FONT_CONFIG →
     fontPriority fm !! i = Some (name cfg) →
     clears cfg text →
     (∀ j cfg', (j < i)%nat → cfg' ∈ FONT_CONFIG →
                fontPriority fm !! j = Some (name cfg') → ¬ clears cfg' text) →
     ∃ b, loaded P cfg = Some b ∧ getBestFontForText fm text = Some b)
  ∧ (∀ cjk latin,
       loaded P NotoSansSC = Some cjk →
       loaded P DejaVuSans = Some latin →
       (10 * covered NotoSansSC text = 9 * length (textCodePoints text))%nat →
       (10 * covered DejaVuSans text = length (textCodePoints text))%nat →
       fontPriority fm !! 0%nat = Some (name NotoSansSC)
       ∧ getBestFontForText fm text = Some cjk)
  ∧ (∀ i cfg,
       cfg ∈ FONT_CONFIG →
       fontPriority fm !! i = Some (name cfg) →
       Forall (in_ranges (unicodeRanges cfg)) (textCodePoints text) →
       (∀ j cfg', (j < i)%nat → cfg' ∈ FONT_CONFIG →
                  fontPriority fm !! j = Some (name cfg') → ¬ clears cfg' text) →
       ∃ b, loaded P cfg = Some b ∧ getBestFontForText fm text = Some b).
Proof.
  intros Hne Hfits fm.
  assert (Hlen : (0 < length (textCodePoints text))%nat).
  { rewrite <- textCodePoints_nil_iff in Hne.
    destruct (textCodePoints text); simpl; [done|lia]. }
  split; [|split].
  - intros i cfg. by apply select_first_clearing.
  - intros cjk latin Hcjk Hlatin H90 _.
    assert (Hp := both_loaded_priority P cjk latin Hcjk Hlatin).
    subst fm. rewrite Hp. split; [done|].
    destruct (select_first_clearing P text 0 NotoSansSC) as (b & Hb & Hsel);
      try done.
    + unfold FONT_CONFIG. by left.
    + by rewrite Hp.
    + apply clears_iff; [done|]. lia.
    + intros j cfg' Hj. lia.
    + rewrite Hcjk in Hb. injection Hb as <-. done.
  - intros i cfg Hcfg Hi Hall Hbefore.
    apply (select_first_clearing P text i cfg); try done.
    apply clears_iff; [done|].
    unfold covered. rewrite (filter_all_length _ _ Hall). lia.
Qed.

Lemma first_clearing_font_selected_witness :
  TestPlatform.cjk_text ≠ []
  ∧ getBestFontForText (new_FontManager TestPlatform.both_fonts)
      TestPlatform.cjk_text
    = Some (TestPlatform.file_bytes TestPlatform.notoPath)
  ∧ getBestFontForText (new_FontManager TestPlatform.both_fonts)
      (lit "Hello, world")
    = Some (TestPlatform.file_bytes TestPlatform.dejavuPath).
Proof.
  assert (Hcjk : TestPlatform.cjk_text ≠ []) by done.
  assert (Hlatin : lit "Hello, world" ≠ []) by done.
  assert (Hfits1 : fits_array TestPlatform.cjk_text) by (vm_compute; reflexivity).
  assert (Hfits2 : fits_array (lit "Hello, world")) by (vm_compute; reflexivity).
  split; [done|]. split.
  - destruct (first_clearing_font_selected TestPlatform.both_fonts
                TestPlatform.cjk_text Hcjk Hfits1) as (_ & Hscenario & _).
    apply (Hscenario _ (TestPlatform.file_bytes TestPlatform.dejavuPath));
      vm_compute; reflexivity.
  - destruct (first_clearing_font_selected TestPlatform.both_fonts
                (lit "Hello, world") Hlatin Hfits2) as (_ & _ & Hsingle).
    destruct (Hsingle 1%nat DejaVuSans) as (b & Hb & Hsel).
    + unfold FONT_CONFIG. right. left.
    + vm_compute. reflexivity.
    + apply (bool_decide_unpack _). vm_compute. reflexivity.
    + intros j cfg' Hj Hin Hp.
      assert (j = 0%nat) as -> by lia.
      assert (cfg' = NotoSansSC) as ->.
      { unfold FONT_CONFIG in Hin. rewrite !elem_of_cons, elem_of_nil in Hin.
        destruct Hin as [->|[->|[]]]; [done|]. vm_compute in Hp. discriminate Hp. }
      vm_compute. intros [=].
    + rewrite Hsel. f_equal. vm_compute in Hb. injection Hb as <-. reflexivity.
Defined.

Lemma filter_ext_elem {A} (Q1 Q2 : A → Prop)
    `{∀ x, Decision (Q1 x)} `{∀ x, Decision (Q2 x)} (l : list A) :
  (∀ x, x ∈ l → Q1 x ↔ Q2 x) → filter Q1 l = filter Q2 l.
Proof.
  induction l as [|x l IH]; intros Hext; [done|].
  rewrite !filter_cons.
  rewrite IH by (intros y Hy; apply Hext; by right).
  destruct (decide (Q1 x)) as [H1|H1], (decide (Q2 x)) as [H2|H2]; try done.
  - exfalso. apply H2, Hext; [by left|done].
  - exfalso. apply H1, Hext; [by left|done].
Qed.

(** C4. On a non-empty text (of fewer than [2^32] code points) for which
    no loaded font's coverage fraction exceeds 0.8: with at least one font loaded, the selection is the head
    of the priority list, a catalog font that loaded; with no font loaded
    at all, it is the sentinel [null]. *)
Theorem fallback_to_first_loaded (P : Platform) (text : jsstring) :
  text ≠ [] →
  fits_array text →
  (∀ cfg, cfg ∈ FONT_CONFIG → is_Some (loaded P cfg) → ¬ clears cfg text) →
  let fm := new_FontManager P in
  (∀ first rest,
     fontPriority fm = first :: rest →
     ∃ cfg b, cfg ∈ FONT_CONFIG ∧ name cfg = first ∧ loaded P cfg = Some b
              ∧ getBestFontForText fm text = Some b)
  ∧ ((∀ cfg, cfg ∈ FONT_CONFIG → loaded P cfg = None) →
     fontPriority fm = [] ∧ getBestFontForText fm text = None).
Proof.
  intros Hne Hfits Hnone fm. subst fm. split.
  - intros first rest Hp. apply (fallback_first P text first rest Hp).
    apply priorityLoop_none; [done|done|].
    intros n cfg Hn Hf.
    apply priority_elem in Hn as (cfg0 & b & Hin0 & Hn0 & Hl0 & _).
    apply findConfig_Some in Hf as [Hin <-].
    assert (cfg0 = cfg) as ->.
    { apply findConfig_name in Hin0. rewrite Hn0 in Hin0.
      rewrite (findConfig_name cfg Hin) in Hin0. congruence. }
    apply Hnone; [done|by eexists].
  - intros Hfail. assert (Hp := nothing_loaded_priority_nil P Hfail).
    split; [done|]. by apply no_fonts_sentinel.
Qed.

Lemma fallback_to_first_loaded_witness :
  getBestFontForText (new_FontManager TestPlatform.both_fonts)
    TestPlatform.arabic_text
  = Some (TestPlatform.file_bytes TestPlatform.notoPath)
  ∧ getBestFontForText (new_FontManager TestPlatform.no_fonts)
      TestPlatform.arabic_text
    = None.
Proof.
  assert (Hne : TestPlatform.arabic_text ≠ []) by done.
  assert (Hfits : fits_array TestPlatform.arabic_text) by (vm_compute; reflexivity).
  assert (Hlow : ∀ P cfg, cfg ∈ FONT_CONFIG → is_Some (loaded P cfg) →
                          ¬ clears cfg TestPlatform.arabic_text).
  { intros P cfg Hin _. unfold FONT_CONFIG in Hin.
    rewrite !elem_of_cons, elem_of_nil in Hin.
    destruct Hin as [->|[->|[]]]; vm_compute; intros [=]. }
  split.
  - destruct (fallback_to_first_loaded TestPlatform.both_fonts
                TestPlatform.arabic_text Hne Hfits (Hlow _)) as [Hfirst _].
    destruct (Hfirst (name NotoSansSC) [name DejaVuSans])
      as (cfg & b & Hin & Hn & Hb & Hsel); [by vm_compute|].
    rewrite Hsel. f_equal.
    assert (cfg = NotoSansSC) as ->.
    { unfold FONT_CONFIG in Hin. rewrite !elem_of_cons, elem_of_nil in Hin.
      destruct Hin as [->|[->|[]]]; [done|]. vm_compute in Hn. discriminate Hn. }
    vm_compute in Hb. injection Hb as <-. reflexivity.
  - destruct (fallback_to_first_loaded TestPlatform.no_fonts
                TestPlatform.arabic_text Hne Hfits (Hlow _)) as [_ Hnone].
    apply Hnone. intros cfg Hin. unfold FONT_CONFIG in Hin.
    rewrite !elem_of_cons, elem_of_nil in Hin.
    destruct Hin as [->|[->|[]]]; vm_compute; reflexivity.
Defined.

(** C5. The fonts a manager holds after construction are catalog fonts
    that loaded, each under its catalog name with the bytes read from its
    file; the priority list names such fonts only; and any bytes that
    [getBestFontForText] returns are those of a catalog font that loaded
    (the other result being the sentinel). *)
Theorem loaded_fonts_within_catalog (P : Platform) :
  let fm := new_FontManager P in
  (∀ n b, loadedFonts fm !! n = Some b →
          ∃ cfg, cfg ∈ FONT_CONFIG ∧ name cfg = n ∧ loaded P cfg = Some b)
  ∧ (∀ n, n ∈ fontPriority fm →
          ∃ cfg, cfg ∈ FONT_CONFIG ∧ name cfg = n ∧ is_Some (loaded P cfg))
  ∧ (∀ text b, getBestFontForText fm text = Some b →
               ∃ cfg, cfg ∈ FONT_CONFIG ∧ loaded P cfg = Some b).
Proof.
  intros fm. subst fm. split; [|split].
  - intros n b Hb. apply lookup_loaded in Hb as (cfg & Hin & Hn & Hl & _).
    by exists cfg.
  - intros n Hn. apply priority_elem in Hn as (cfg & b & Hin & Hn & Hl & _).
    exists cfg. split; [done|]. split; [done|]. by eexists.
  - intros text b Hsel. apply getBestFontForText_lookup in Hsel as [n Hb].
    apply lookup_loaded in Hb as (cfg & Hin & _ & Hl & _). by exists cfg.
Qed.

Lemma loaded_fonts_within_catalog_witness :
  ∃ cfg, cfg ∈ FONT_CONFIG
         ∧ loaded TestPlatform.latin_only cfg
           = Some (TestPlatform.file_bytes TestPlatform.dejavuPath).
Proof.
  destruct (loaded_fonts_within_catalog TestPlatform.latin_only) as (_ & _ & Hsel).
  apply (Hsel TestPlatform.cjk_text). vm_compute. reflexivity.
Defined.

(** C9. The selection is a function of the text, the loaded-font map and
    the priority list alone; and managers constructed on two platforms on
    which every catalog font loads alike (the same fonts with the same
    bytes) select alike on every text. *)
Theorem selection_deterministic :
  (∀ fm1 fm2 text1 text2,
     text1 = text2 →
     loadedFonts fm1 = loadedFonts fm2 →
     fontPriority fm1 = fontPriority fm2 →
     getBestFontForText fm1 text1 = getBestFontForText fm2 text2)
  ∧ (∀ P1 P2 text,
       (∀ cfg, cfg ∈ FONT_CONFIG → loaded P1 cfg = loaded P2 cfg) →
       getBestFontForText (new_FontManager P1) text
       = getBestFontForText (new_FontManager P2) text).
Proof.
  split.
  - intros [m1 p1] [m2 p2] text1 text2 -> Hm Hp. simpl in *. by subst.
  - intros P1 P2 text Hsame.
    assert (Hmap : loadedFonts (new_FontManager P1) = loadedFonts (new_FontManager P2)).
    { apply map_eq. intros n. rewrite !new_FontManager_lookup.
      destruct (findConfig n) as [cfg|] eqn:Hf; simpl; [|done].
      apply findConfig_Some in Hf as [Hin _]. by apply Hsame. }
    assert (Hprio : fontPriority (new_FontManager P1) = fontPriority (new_FontManager P2)).
    { rewrite !new_FontManager_priority. f_equal.
      apply filter_ext_elem. intros cfg Hin. by rewrite (Hsame cfg Hin). }
    destruct (new_FontManager P1) as [m1 p1], (new_FontManager P2) as [m2 p2].
    simpl in *. by subst.
Qed.

Lemma selection_deterministic_witness :
  getBestFontForText (new_FontManager TestPlatform.both_fonts) TestPlatform.cjk_text
  = getBestFontForText
      (new_FontManager
         (TestPlatform.make [TestPlatform.notoPath; TestPlatform.dejavuPath; lit "/tmp/other"]
            (Throw (mkError (lit "unused"))) (Ok [])
            TestPlatform.never_throws TestPlatform.stream_ok))
      TestPlatform.cjk_text.
Proof.
  destruct selection_deterministic as [_ Hplatforms].
  apply Hplatforms. intros cfg Hin. unfold FONT_CONFIG in Hin.
  rewrite !elem_of_cons, elem_of_nil in Hin.
  destruct Hin as [->|[->|[]]]; vm_compute; reflexivity.
Defined.

(** C10. On the empty text the quotient is [0/0 = NaN], the test
    [NaN > 0.8] is false for every font, the loop selects nothing, and the
    fallback returns the first loaded font when there is one and the
    sentinel otherwise; [getBestFontForText] has no failing path. *)
Theorem empty_text_selects_first_font (P : Platform) :
  let fm := new_FontManager P in
  textCodePoints [] = []
  ∧ (∀ ranges,
       js_div (supportedChars (textCodePoints []) ranges)
              (Z.of_nat (length (textCodePoints []))) = S754_nan)
  ∧ js_gt S754_nan literal_0_8 = false
  ∧ (∀ names, priorityLoop fm (textCodePoints []) names = None)
  ∧ (∀ first rest,
       fontPriority fm = first :: rest →
       ∃ cfg b, cfg ∈ FONT_CONFIG ∧ name cfg = first ∧ loaded P cfg = Some b
                ∧ getBestFontForText fm [] = Some b)
  ∧ (fontPriority fm = [] → getBestFontForText fm [] = None).
Proof.
  intros fm. subst fm. repeat split.
  - apply priorityLoop_empty_text.
  - intros first rest Hp. apply (fallback_first P [] first rest Hp).
    apply priorityLoop_empty_text.
  - apply no_fonts_sentinel.
Qed.

Lemma empty_text_selects_first_font_witness :
  getBestFontForText (new_FontManager TestPlatform.latin_only) []
  = Some (TestPlatform.file_bytes TestPlatform.dejavuPath).
Proof.
  destruct (empty_text_selects_first_font TestPlatform.latin_only)
    as (_ & _ & _ & _ & Hfirst & _).
  destruct (Hfirst (name DejaVuSans) []) as (cfg & b & Hin & Hn & Hb & Hsel);
    [by vm_compute|].
  rewrite Hsel. f_equal.
  assert (cfg = DejaVuSans) as ->.
  { unfold FONT_CONFIG in Hin. rewrite !elem_of_cons, elem_of_nil in Hin.
    destruct Hin as [->|[->|[]]]; [|done]. vm_compute in Hn. discriminate Hn. }
  vm_compute in Hb. injection Hb as <-. reflexivity.
Defined.

(** ** Document operations *)

Lemma bind_ok {A B} (m : PDF A) (k : A → PDF B) doc a doc' :
  m doc = (Ok a, doc') → bind m k doc = k a doc'.
Proof. unfold bind. by intros ->. Qed.

Lemma bind_throw {A B} (m : PDF A) (k : A → PDF B) doc e doc' :
  m doc = (Throw e, doc') → bind m k doc = (Throw e, doc').
Proof. unfold bind. by intros ->. Qed.

Lemma try_catch_ok {A} (body : PDF A) handler doc a doc' :
  body doc = (Ok a, doc') → try_catch body handler doc = (Ok a, doc').
Proof. unfold try_catch. by intros ->. Qed.

Lemma try_catch_throw {A} (body : PDF A) handler doc e doc' :
  body doc = (Throw e, doc') → try_catch body handler doc = handler e doc'.
Proof. unfold try_catch. by intros ->. Qed.

Lemma has_page_app doc calls :
  existsb is_AddPage doc = true → existsb is_AddPage (doc ++ calls) = true.
Proof. intros H. rewrite existsb_app, H. done. Qed.

Lemma has_page_AddPage doc calls :
  existsb is_AddPage (doc ++ AddPage :: calls) = true.
Proof. rewrite existsb_app. simpl. apply orb_true_r. Qed.

Section Rendering.

Variable P : Platform.

Lemma call_accepted doc c :
  pdf_throws P doc c = None → call P c doc = (Ok tt, doc ++ [c]).
Proof. unfold call. by intros ->. Qed.

Lemma call_refused doc c e :
  pdf_throws P doc c = Some e → call P c doc = (Throw e, doc).
Proof. unfold call. by intros ->. Qed.

Lemma page_prop_ok prop v doc :
  existsb is_AddPage doc = true → page_prop prop v doc = (Ok v, doc).
Proof. unfold page_prop. by intros ->. Qed.

Lemma applyFont_call selection :
  applyFont P selection = call P (SetFont (fontSource selection)).
Proof. by destruct selection. Qed.

Hypothesis images_only : only_images_fail P.

Lemma placeholderLine_ok fm errorText doc :
  placeholderLine P fm errorText doc = (Ok tt, doc ++ placeholderCalls fm errorText).
Proof.
  unfold placeholderLine, placeholderCalls. rewrite applyFont_call.
  erewrite bind_ok; [|by apply call_accepted, images_only].
  erewrite bind_ok; [|by apply call_accepted, images_only].
  rewrite call_accepted by by apply images_only.
  by rewrite <- !app_assoc.
Qed.

(** An image of another content type: a new page with the placeholder. *)
Lemma processImage_unsupported fm img doc :
  ¬ supportedImage img →
  processImage P fm img doc
  = (Ok tt, doc ++ AddPage ::
       placeholderCalls fm
         (lit "[Unsupported image type: " ++ contentType img ++ lit "]")).
Proof.
  intros Hun. unfold processImage.
  erewrite bind_ok; [|by apply call_accepted, images_only].
  assert (Hno : str_eqb (contentType img) (lit "image/jpeg")
                || str_eqb (contentType img) (lit "image/png") = false).
  { apply orb_false_iff. split; apply not_true_iff_false;
      rewrite str_eqb_eq; intros H; apply Hun; [by left|by right]. }
  rewrite Hno.
  erewrite try_catch_ok; [|apply placeholderLine_ok].
  by rewrite <- app_assoc.
Qed.

(** A JPEG or PNG image: a new page, and on it the image, or the
    placeholder for the error its embedding raised. *)
Lemma processImage_supported fm img doc :
  supportedImage img →
  processImage P fm img doc
  = (Ok tt, doc ++ AddPage ::
       match pdf_throws P (doc ++ [AddPage]) (embedCall P img) with
       | None => [embedCall P img]
       | Some e =>
           placeholderCalls fm
             (lit "[Error embedding image: " ++ message e ++ lit "]")
       end).
Proof.
  intros Hsup. unfold processImage.
  erewrite bind_ok; [|by apply call_accepted, images_only].
  assert (Hyes : str_eqb (contentType img) (lit "image/jpeg")
                 || str_eqb (contentType img) (lit "image/png") = true).
  { apply orb_true_iff. destruct Hsup as [H|H]; [left|right]; by apply str_eqb_eq. }
  rewrite Hyes.
  assert (Hpage : existsb is_AddPage (doc ++ [AddPage]) = true)
    by apply has_page_AddPage.
  destruct (pdf_throws P (doc ++ [AddPage]) (embedCall P img)) as [e|] eqn:He.
  - rewrite (try_catch_throw _ _ _ e (doc ++ [AddPage])).
    + rewrite placeholderLine_ok. by rewrite <- app_assoc.
    + unfold get_page_width, get_page_height.
      erewrite bind_ok; [|by apply page_prop_ok].
      erewrite bind_ok; [|by apply page_prop_ok].
      by apply call_refused.
  - rewrite (try_catch_ok _ _ _ tt ((doc ++ [AddPage]) ++ [embedCall P img])).
    + by rewrite <- app_assoc.
    + unfold get_page_width, get_page_height.
      erewrite bind_ok; [|by apply page_prop_ok].
      erewrite bind_ok; [|by apply page_prop_ok].
      by apply call_accepted.
Qed.

Lemma processImage_page fm img doc :
  ∃ page, processImage P fm img doc = (Ok tt, doc ++ AddPage :: page).
Proof.
  destruct (decide (supportedImage img)) as [Hs|Hn].
  - eexists. by apply processImage_supported.
  - eexists. by apply processImage_unsupported.
Qed.

(** The loop over the images never throws; each image adds one group of
    calls that opens with a new page. *)
Lemma processImages_pages fm images doc :
  ∃ pages, processImages P images fm doc = (Ok tt, doc ++ concat pages)
           ∧ length pages = length images
           ∧ Forall (λ page, head page = Some AddPage) pages.
Proof.
  revert doc. induction images as [|img images IH]; intros doc.
  - exists []. simpl. rewrite app_nil_r. done.
  - destruct (processImage_page fm img doc) as [page Hpage].
    destruct (IH (doc ++ AddPage :: page)) as (pages & Hrest & Hlen & Hall).
    exists ((AddPage :: page) :: pages).
    unfold processImages in *. simpl.
    erewrite bind_ok; [|exact Hpage].
    rewrite Hrest, <- app_assoc. simpl. repeat split; [by rewrite Hlen|].
    by constructor.
Qed.

End Rendering.

(** ** Image pages *)

(** X22. With a renderer on which only the embedding of an image can fail,
    [processImages] never throws and gives every image a new page. An
    image whose content type is neither JPEG nor PNG gets, on its page,
    the line [[Unsupported image type: <content type>]] (for [image/bmp],
    [[Unsupported image type: image/bmp]]) in the selected font; a JPEG or
    PNG whose embedding throws gets the line
    [[Error embedding image: <message>]]. *)
Theorem image_failures_become_placeholders (P : Platform) (fm : FontManager) :
  only_images_fail P →
  (∀ images doc,
     ∃ pages, processImages P images fm doc = (Ok tt, doc ++ concat pages)
              ∧ length pages = length images
              ∧ Forall (λ page, head page = Some AddPage) pages)
  ∧ (∀ img doc,
       ¬ supportedImage img →
       processImage P fm img doc
       = (Ok tt, doc ++ [AddPage;
            SetFont (fontSource
              (getBestFontForText fm
                 (lit "[Unsupported image type: " ++ contentType img ++ lit "]")));
            FontSize 10;
            Text (lit "[Unsupported image type: " ++ contentType img ++ lit "]")
                 centered]))
  ∧ (∀ img doc e,
       supportedImage img →
       pdf_throws P (doc ++ [AddPage]) (embedCall P img) = Some e →
       processImage P fm img doc
       = (Ok tt, doc ++ [AddPage;
            SetFont (fontSource
              (getBestFontForText fm
                 (lit "[Error embedding image: " ++ message e ++ lit "]")));
            FontSize 10;
            Text (lit "[Error embedding image: " ++ message e ++ lit "]")
                 centered]))
  ∧ lit "[Unsupported image type: " ++ lit "image/bmp" ++ lit "]"
    = lit "[Unsupported image type: image/bmp]".
Proof.
  intros Honly. split; [|split; [|split]].
  - intros images doc. by apply processImages_pages.
  - intros img doc Hun. by apply processImage_unsupported.
  - intros img doc e Hsup He.
    rewrite processImage_supported by done. by rewrite He.
  - reflexivity.
Qed.

Lemma image_failures_become_placeholders_witness :
  only_images_fail TestPlatform.with_images
  ∧ processImages TestPlatform.with_images
      [TestPlatform.bmp; TestPlatform.empty_png]
      (new_FontManager TestPlatform.with_images) []
    = (Ok tt,
       [AddPage;
        SetFont (FontBuffer (TestPlatform.file_bytes TestPlatform.dejavuPath));
        FontSize 10;
        Text (lit "[Unsupported image type: image/bmp]") centered;
        AddPage;
        SetFont (FontBuffer (TestPlatform.file_bytes TestPlatform.dejavuPath));
        FontSize 10;
        Text (lit "[Error embedding image: Unknown image format.]") centered]).
Proof.
  assert (Honly : only_images_fail TestPlatform.with_images).
  { intros doc c Hc. destruct c as [| | | | |b o]; try reflexivity.
    by destruct (Hc b o). }
  split; [exact Honly|].
  destruct (image_failures_become_placeholders TestPlatform.with_images
              (new_FontManager TestPlatform.with_images) Honly)
    as (_ & Hbmp & Hpng & _).
  unfold processImages. simpl for_of.
  erewrite bind_ok;
    [|apply (Hbmp TestPlatform.bmp []); intros [H|H]; discriminate H].
  erewrite bind_ok;
    [|apply (Hpng TestPlatform.empty_png _
               (mkError (lit "Unknown image format.")));
      [right; reflexivity | reflexivity]].
  vm_compute. reflexivity.
Defined.

(** ** The server action *)

Section Action.

Variable P : Platform.

(** A plain call never gets past [this.processTextWithFonts]. *)
Lemma buildDocument_plain_call this textContent images fm doc :
  this = ThisUndefined ∨ this = ThisNull →
  ∃ e doc', buildDocument P this textContent images fm doc = (Throw e, doc').
Proof.
  intros Hthis. unfold buildDocument, bind, call.
  destruct (pdf_throws P doc AddPage) as [e|]; [by eexists _, _|].
  destruct Hthis as [-> | ->]; simpl; by eexists _, _.
Qed.

(** X1. Called without a receiver, the action resolves with an error for
    every input and on every platform. *)
Lemma plain_call_always_error this input :
  this = ThisUndefined ∨ this = ThisNull →
  ∃ msg, convertWordToPdfAction P this input = Fulfilled (error_output msg).
Proof.
  intros Hthis. unfold convertWordToPdfAction, tryBlock.
  destruct (truthy (docxFileBase64 input)); simpl; [|by eexists].
  destruct (length _ =? 0)%nat; [by eexists|].
  destruct (mammoth_extractRawText P _) as [textContent|e]; [|by eexists].
  destruct (truthy (trim textContent)); simpl; [|by eexists].
  destruct (mammoth_convertToHtml P _) as [images|e]; [|by eexists].
  destruct (buildDocument_plain_call this textContent images
              (new_FontManager P) [] Hthis) as (e & doc' & ->).
  by eexists.
Qed.


(** The action either gets as far as the promise executor, and its
    promise is the one built there, or it resolves with an error. *)
Lemma action_at_finalization this input doc :
  reachesFinalization P this input doc →
  convertWordToPdfAction P this input = finalize P doc.
Proof.
  intros (textContent & images & Ht & Hbuf & Hx & Hblank & Hi & Hb).
  unfold convertWordToPdfAction, tryBlock. rewrite Ht. simpl.
  destruct (Buffer_from_base64 P (docxFileBase64 input)) as [|b0 bs]; [done|].
  simpl. rewrite Hx.
  assert (Htrim : truthy (trim textContent) = true).
  { apply truthy_true_iff. by rewrite trim_nil_iff. }
  rewrite Htrim. simpl. by rewrite Hi, Hb.
Qed.

Lemma action_reaches_or_error this input :
  (∃ doc, reachesFinalization P this input doc)
  ∨ (∃ msg, convertWordToPdfAction P this input = Fulfilled (error_output msg)).
Proof.
  unfold convertWordToPdfAction, tryBlock, reachesFinalization.
  destruct (truthy (docxFileBase64 input)) eqn:Ht; simpl; [|right; by eexists].
  destruct (Buffer_from_base64 P (docxFileBase64 input)) as [|b0 bs] eqn:Hbuf;
    [right; by eexists|]. simpl.
  destruct (mammoth_extractRawText P _) as [textContent|e] eqn:Hx;
    [|right; by eexists].
  destruct (truthy (trim textContent)) eqn:Htrim; simpl; [|right; by eexists].
  destruct (mammoth_convertToHtml P _) as [images|e] eqn:Hi; [|right; by eexists].
  destruct (buildDocument P this textContent images _ []) as [[[]|e] doc] eqn:Hb;
    [|right; by eexists].
  left. exists doc, textContent, images. repeat split; try done.
  intros Hblank. apply trim_nil_iff in Hblank. by rewrite Hblank in Htrim.
Qed.

(** X3. The promise of the action fails to be fulfilled only at
    finalization, whatever the receiver. It is rejected with an output
    object exactly when the executor is reached and the stream emits
    ['error'], the object carrying the finalization message; rejected
    with an exception exactly when the executor is reached and
    [pdfDoc.end()] throws it; and it stays pending exactly when the
    executor is reached and the stream emits neither event. *)
Lemma unfulfilled_only_at_finalization this input :
  (∀ reason,
     convertWordToPdfAction P this input = Rejected reason ↔
     ∃ doc err,
       reachesFinalization P this input doc
       ∧ pdf_end P doc = StreamError err
       ∧ reason = error_output (lit "Failed to finalize PDF document. "
                                ++ message err))
  ∧ (∀ e,
       convertWordToPdfAction P this input = RejectedWith e ↔
       ∃ doc, reachesFinalization P this input doc ∧ pdf_end P doc = EndThrows e)
  ∧ (convertWordToPdfAction P this input = Pending ↔
     ∃ doc, reachesFinalization P this input doc ∧ pdf_end P doc = StreamSilent).
Proof.
  split; [|split].
  - intros reason. split.
    + intros Hr. destruct (action_reaches_or_error this input) as [[doc Hd]|[msg Hm]];
        [|congruence].
      rewrite (action_at_finalization _ _ _ Hd) in Hr. unfold finalize in Hr.
      destruct (pdf_end P doc) as [chunks|err|e|] eqn:He; try discriminate Hr.
      injection Hr as <-. by exists doc, err.
    + intros (doc & err & Hd & He & ->).
      rewrite (action_at_finalization _ _ _ Hd). unfold finalize. by rewrite He.
  - intros e. split.
    + intros Hr. destruct (action_reaches_or_error this input) as [[doc Hd]|[msg Hm]];
        [|congruence].
      rewrite (action_at_finalization _ _ _ Hd) in Hr. unfold finalize in Hr.
      destruct (pdf_end P doc) as [chunks|err|e'|] eqn:He; try discriminate Hr.
      injection Hr as <-. by exists doc.
    + intros (doc & Hd & He).
      rewrite (action_at_finalization _ _ _ Hd). unfold finalize. by rewrite He.
  - split.
    + intros Hr. destruct (action_reaches_or_error this input) as [[doc Hd]|[msg Hm]];
        [|congruence].
      rewrite (action_at_finalization _ _ _ Hd) in Hr. unfold finalize in Hr.
      destruct (pdf_end P doc) as [chunks|err|e'|] eqn:He; try discriminate Hr.
      by exists doc.
    + intros (doc & Hd & He).
      rewrite (action_at_finalization _ _ _ Hd). unfold finalize. by rewrite He.
Qed.

(** The paragraphs: with a page present and a renderer that accepts every
    call, a paragraph is rendered without an exception. *)
Lemma processParagraph_ok fm paragraph doc :
  renderer_accepts_all P →
  existsb is_AddPage doc = true →
  ∃ calls, processParagraph P fm paragraph doc = (Ok tt, doc ++ calls).
Proof.
  intros Hacc Hpage. unfold processParagraph.
  destruct (truthy (trim paragraph)); simpl.
  - eexists. apply try_catch_ok. rewrite applyFont_call.
    erewrite bind_ok; [|by apply call_accepted].
    unfold emitParagraph, get_page_width.
    erewrite bind_ok; [|by apply call_accepted].
    erewrite bind_ok; [|by apply page_prop_ok, has_page_app, has_page_app].
    erewrite bind_ok; [|by apply call_accepted].
    rewrite call_accepted by done. by rewrite <- !app_assoc.
  - exists []. by rewrite app_nil_r.
Qed.

Lemma processTextWithFonts_ok fm text doc :
  renderer_accepts_all P →
  existsb is_AddPage doc = true →
  ∃ calls, processTextWithFonts P text fm doc = (Ok tt, doc ++ calls).
Proof.
  intros Hacc. unfold processTextWithFonts.
  generalize (List.filter (λ p, truthy (trim p)) (splitParagraphs text)).
  intros paragraphs. revert doc.
  induction paragraphs as [|p ps IH]; intros doc Hpage; simpl.
  - exists []. by rewrite app_nil_r.
  - destruct (processParagraph_ok fm p doc Hacc Hpage) as [calls Hp].
    destruct (IH (doc ++ calls)) as [calls' Hps]; [by apply has_page_app|].
    exists (calls ++ calls'). erewrite bind_ok; [|exact Hp].
    by rewrite Hps, <- app_assoc.
Qed.

(** X4. Were the helpers reachable through [this], a document with text and
    no image would convert whenever the renderer accepts every call and
    the stream ends. *)
Lemma bound_helpers_convert input textContent :
  renderer_accepts_all P →
  (∀ doc, ∃ chunks, pdf_end P doc = StreamEnd chunks) →
  docxFileBase64 input ≠ [] →
  Buffer_from_base64 P (docxFileBase64 input) ≠ [] →
  mammoth_extractRawText P (Buffer_from_base64 P (docxFileBase64 input))
  = Ok textContent →
  ¬ blank textContent →
  mammoth_convertToHtml P (Buffer_from_base64 P (docxFileBase64 input)) = Ok [] →
  ∃ doc chunks,
    pdf_end P doc = StreamEnd chunks
    ∧ convertWordToPdfAction P (ThisObject true true) input
      = Fulfilled (pdf_output (lit "data:application/pdf;base64,"
                               ++ Buffer_toString_base64 P (concat chunks))).
Proof.
  intros Hacc Hend Hb64 Hbuf Hx Hblank Hi.
  unfold convertWordToPdfAction, tryBlock.
  apply truthy_true_iff in Hb64. rewrite Hb64. simpl.
  destruct (Buffer_from_base64 P (docxFileBase64 input)) as [|b0 bs]; [done|].
  simpl. rewrite Hx.
  assert (Htrim : truthy (trim textContent) = true).
  { apply truthy_true_iff. by rewrite trim_nil_iff. }
  rewrite Htrim. simpl. rewrite Hi.
  destruct (processTextWithFonts_ok (new_FontManager P) textContent [AddPage] Hacc)
    as [calls Hcalls]; [done|].
  assert (Hdoc : buildDocument P (ThisObject true true) textContent []
                   (new_FontManager P) [] = (Ok tt, [AddPage] ++ calls)).
  { unfold buildDocument.
    erewrite bind_ok; [|by apply call_accepted].
    simpl. erewrite bind_ok; [|exact Hcalls]. done. }
  rewrite Hdoc. destruct (Hend ([AddPage] ++ calls)) as [chunks Hchunks].
  exists ([AddPage] ++ calls), chunks. split; [done|].
  unfold finalize. by rewrite Hchunks.
Qed.

End Action.

(** ** Results of the server action *)

(** C1. An ASCII document without images does not convert when the action
    is called as the page calls it. The request below carries the text
    [Hello world] and no image, both fonts load and the renderer accepts
    every call; the call without a receiver nevertheless resolves with an
    error and no PDF, because [this.processTextWithFonts] is evaluated
    with [this] undefined (or [null]): the helper is a function of the
    module, not a method. *)
Theorem ascii_document_plain_call_fails :
  let P := TestPlatform.both_fonts in
  let input := TestPlatform.request in
  let docx := Buffer_from_base64 P (docxFileBase64 input) in
  mammoth_extractRawText P docx = Ok (lit "Hello world")
  ∧ Forall (λ c, 0 ≤ c < 128) (lit "Hello world")
  ∧ ¬ blank (lit "Hello world")
  ∧ mammoth_convertToHtml P docx = Ok []
  ∧ renderer_accepts_all P
  ∧ convertWordToPdfAction P ThisUndefined input
    = Fulfilled
        {| pdfDataUri := None;
           error := Some (lit "Failed to convert Word document. Cannot read properties of undefined (reading 'processTextWithFonts')") |}
  ∧ convertWordToPdfAction P ThisNull input
    = Fulfilled
        {| pdfDataUri := None;
           error := Some (lit "Failed to convert Word document. Cannot read properties of null (reading 'processTextWithFonts')") |}.
Proof.
  repeat split.
  - apply (bool_decide_unpack _). by vm_compute.
  - intros H. apply trim_nil_iff in H. vm_compute in H. discriminate H.
Qed.



(** The [reject] of line 196 is a latent slip behind the one of line 179:
    on a receiver that did carry the two helpers, a failure of the stream
    at finalization would reach the caller as a rejected promise, the
    ['error'] handler passing the error object to [reject] and the
    promise being returned from inside the [try] block, out of reach of
    its [catch]. *)
Lemma finalization_failure_rejects :
  let P := TestPlatform.failing_stream in
  (∀ doc, pdf_end P doc = StreamError (mkError (lit "write EPIPE")))
  ∧ convertWordToPdfAction P (ThisObject true true) TestPlatform.request
    = Rejected
        {| pdfDataUri := None;
           error := Some (lit "Failed to finalize PDF document. write EPIPE") |}.
Proof. split; [done|]. vm_compute. reflexivity. Qed.

(** C8. A document with an image of unsupported type does not get its
    placeholder page when the action is called as the page calls it. The
    request below carries the text [Hello world] and three images, the
    first of type [image/bmp]; the call without a receiver throws at
    [this.processTextWithFonts] with only the first page added, before
    [processImages] is reached, and the action resolves with an error and
    no PDF: the conversion is aborted and no placeholder is written. *)
Theorem image_document_plain_call_aborts :
  let P := TestPlatform.with_images in
  let input := TestPlatform.request in
  let docx := Buffer_from_base64 P (docxFileBase64 input) in
  let images := [TestPlatform.bmp; TestPlatform.empty_png; TestPlatform.png] in
  mammoth_extractRawText P docx = Ok (lit "Hello world")
  ∧ mammoth_convertToHtml P docx = Ok images
  ∧ contentType TestPlatform.bmp = lit "image/bmp"
  ∧ ¬ supportedImage TestPlatform.bmp
  ∧ buildDocument P ThisUndefined (lit "Hello world") images (new_FontManager P) []
    = (Throw (mkError (lit "Cannot read properties of undefined (reading 'processTextWithFonts')")),
       [AddPage])
  ∧ convertWordToPdfAction P ThisUndefined input
    = Fulfilled
        {| pdfDataUri := None;
           error := Some (lit "Failed to convert Word document. Cannot read properties of undefined (reading 'processTextWithFonts')") |}
  ∧ convertWordToPdfAction P ThisNull input
    = Fulfilled
        {| pdfDataUri := None;
           error := Some (lit "Failed to convert Word document. Cannot read properties of null (reading 'processTextWithFonts')") |}.
Proof.
  cbv zeta. split; [reflexivity|]. split; [reflexivity|]. split; [reflexivity|].
  split; [intros [H|H]; discriminate H|].
  split; [vm_compute; reflexivity|]. split; vm_compute; reflexivity.
Qed.

(** C6. A payload that is empty after decoding makes the action resolve
    with an empty-input error and no PDF: the message for a missing
    payload when the base64 text itself is empty, the message for an empty
    decoded buffer otherwise. *)
Theorem empty_payload_rejected (P : Platform) (this : ThisValue)
    (input : ConvertWordToPdfInput) :
  Buffer_from_base64 P (docxFileBase64 input) = [] →
  convertWordToPdfAction P this input
  = Fulfilled
      {| pdfDataUri := None;
         error := Some
           (match docxFileBase64 input with
            | [] => lit "No DOCX file data provided for conversion."
            | _ :: _ => lit "Empty DOCX file data received after base64 decoding."
            end) |}.
Proof.
  intros Hempty. unfold convertWordToPdfAction, tryBlock.
  rewrite Hempty. by destruct (docxFileBase64 input).
Qed.

Lemma empty_payload_rejected_witness :
  Buffer_from_base64 TestPlatform.both_fonts
    (docxFileBase64 TestPlatform.padding_only) = []
  ∧ convertWordToPdfAction TestPlatform.both_fonts ThisUndefined
      TestPlatform.padding_only
    = Fulfilled
        {| pdfDataUri := None;
           error := Some (lit "Empty DOCX file data received after base64 decoding.") |}.
Proof.
  split; [reflexivity|].
  apply (empty_payload_rejected TestPlatform.both_fonts ThisUndefined
           TestPlatform.padding_only).
  reflexivity.
Defined.

(** C7. When the text extracted from a non-empty payload is empty or
    white space only, the action resolves with the no-text error and no
    PDF, whatever the receiver and whatever images the document holds:
    the check precedes the extraction of images. *)
Theorem blank_text_rejected (P : Platform) (this : ThisValue)
    (input : ConvertWordToPdfInput) (textContent : jsstring) :
  docxFileBase64 input ≠ [] →
  Buffer_from_base64 P (docxFileBase64 input) ≠ [] →
  mammoth_extractRawText P (Buffer_from_base64 P (docxFileBase64 input))
  = Ok textContent →
  blank textContent →
  convertWordToPdfAction P this input
  = Fulfilled
      {| pdfDataUri := None;
         error := Some (lit "No text content found in the document.") |}.
Proof.
  intros Hb64 Hbuf Hx Hblank. unfold convertWordToPdfAction, tryBlock.
  apply truthy_true_iff in Hb64. rewrite Hb64. simpl.
  destruct (Buffer_from_base64 P (docxFileBase64 input)) as [|b0 bs]; [done|].
  simpl. rewrite Hx. by rewrite (trim_blank _ Hblank).
Qed.

Lemma blank_text_rejected_witness :
  mammoth_convertToHtml TestPlatform.image_only
    (Buffer_from_base64 TestPlatform.image_only
       (docxFileBase64 TestPlatform.request))
  = Ok [TestPlatform.png]
  ∧ blank [32; 10; 9]
  ∧ convertWordToPdfAction TestPlatform.image_only (ThisObject true true)
      TestPlatform.request
    = Fulfilled
        {| pdfDataUri := None;
           error := Some (lit "No text content found in the document.") |}.
Proof.
  assert (Hblank : blank [32; 10; 9]).
  { repeat constructor. }
  split; [reflexivity|]. split; [exact Hblank|].
  apply (blank_text_rejected TestPlatform.image_only (ThisObject true true)
           TestPlatform.request [32; 10; 9]).
  - vm_compute. discriminate.
  - vm_compute. discriminate.
  - reflexivity.
  - exact Hblank.
Defined.

(** * Further properties *)

(** ** The loaded fonts *)

Lemma priorityLoop_Some_elem fm cps (names : list jsstring) r :
  priorityLoop fm cps names = Some r →
  ∃ n, n ∈ names ∧ r = loadedFonts fm !! n.
Proof.
  induction names as [|m names IH]; simpl; [done|].
  assert (Hrest : priorityLoop fm cps names = Some r →
                  ∃ n, n ∈ m :: names ∧ r = loadedFonts fm !! n).
  { intros H. destruct (IH H) as (n & Hn & Hr). exists n. split; [by right|done]. }
  destruct (findConfig m); [|done].
  destruct (js_gt _ _); [|done].
  intros [= <-]. exists m. split; [by left|done].
Qed.

Lemma priority_sublist P :
  fontPriority (new_FontManager P) `sublist_of` (name <$> FONT_CONFIG).
Proof.
  rewrite new_FontManager_priority. apply fmap_sublist, sublist_filter.
Qed.

Lemma priority_NoDup P : NoDup (fontPriority (new_FontManager P)).
Proof.
  apply (sublist_NoDup _ _ FONT_CONFIG_NoDup), priority_sublist.
Qed.

Lemma priority_iff_lookup P n :
  n ∈ fontPriority (new_FontManager P)
  ↔ is_Some (loadedFonts (new_FontManager P) !! n).
Proof.
  split.
  - intros Hn. apply priority_elem in Hn as (cfg & b & _ & _ & _ & Hb). by eexists.
  - intros [b Hb]. by apply lookup_loaded in Hb as (cfg & _ & _ & _ & Hin).
Qed.

(** X5. After construction the priority list is a duplicate-free sublist of
    the catalog names, in catalog order; it lists exactly the keys of the
    map of loaded fonts, one entry per key. *)
Theorem priority_lists_loaded_keys (P : Platform) :
  let fm := new_FontManager P in
  fontPriority fm `sublist_of` (name <$> FONT_CONFIG)
  ∧ NoDup (fontPriority fm)
  ∧ (∀ n, n ∈ fontPriority fm ↔ is_Some (loadedFonts fm !! n))
  ∧ size (loadedFonts fm) = length (fontPriority fm).
Proof.
  intros fm. subst fm.
  split; [apply priority_sublist|]. split; [apply priority_NoDup|].
  split; [apply priority_iff_lookup|].
  rewrite <- size_dom.
  assert (Hdom : dom (loadedFonts (new_FontManager P))
                 = list_to_set (fontPriority (new_FontManager P))).
  { apply set_eq. intros n.
    rewrite elem_of_dom, elem_of_list_to_set. symmetry. apply priority_iff_lookup. }
  rewrite Hdom. apply size_list_to_set, priority_NoDup.
Qed.

Lemma selection_is_Some P (text : jsstring) :
  fontPriority (new_FontManager P) ≠ [] →
  is_Some (getBestFontForText (new_FontManager P) text).
Proof.
  intros Hne.
  destruct (fontPriority (new_FontManager P)) as [|first rest] eqn:Hp; [done|].
  destruct (priorityLoop (new_FontManager P) (textCodePoints text)
              (fontPriority (new_FontManager P))) as [r|] eqn:Hloop.
  - destruct (priorityLoop_Some_elem _ _ _ _ Hloop) as (n & Hn & ->).
    apply priority_elem in Hn as (cfg' & b' & _ & _ & _ & Hb').
    unfold getBestFontForText.
    rewrite (size_lookup_nonzero _ _ _ Hb'), Hloop, Hb'. by eexists.
  - destruct (fallback_first P text first rest Hp Hloop) as (? & ? & _ & _ & _ & ->).
    by eexists.
Qed.

(** X6. The selection is the sentinel exactly when no catalog font loaded, on
    every text. *)
Theorem sentinel_iff_nothing_loaded (P : Platform) (text : jsstring) :
  getBestFontForText (new_FontManager P) text = None
  ↔ ∀ cfg, cfg ∈ FONT_CONFIG → loaded P cfg = None.
Proof.
  split.
  - intros Hnone cfg Hcfg.
    destruct (loaded P cfg) as [b|] eqn:Hb; [|done]. exfalso.
    assert (Hin : name cfg ∈ fontPriority (new_FontManager P)).
    { rewrite new_FontManager_priority.
      apply list_elem_of_fmap_2, list_elem_of_filter. split; [by eexists|done]. }
    destruct (selection_is_Some P text) as [b' Hb'].
    + intros Hnil. rewrite Hnil in Hin. by apply elem_of_nil in Hin.
    + congruence.
  - intros Hfail. apply no_fonts_sentinel. by apply nothing_loaded_priority_nil.
Qed.

(** ** Code points *)

Lemma Array_from_length (s : jsstring) :
  (length (Array_from s) ≤ length s)%nat.
Proof.
  remember (length s) as k eqn:Hk. revert s Hk.
  induction k as [k IH] using lt_wf_ind. intros s ->.
  destruct s as [|c [|d s]]; simpl; [lia|lia|].
  destruct (is_high_surrogate c && is_low_surrogate d); simpl.
  - assert (length (Array_from s) ≤ length s)%nat
      by (apply (IH (length s)); simpl; [lia|done]).
    lia.
  - assert (length (Array_from (d :: s)) ≤ length (d :: s))%nat
      by (apply (IH (length (d :: s))); simpl; [lia|done]).
    simpl in *. lia.
Qed.

Lemma textCodePoints_no_surrogates (s : jsstring) :
  Forall (λ c, is_high_surrogate c = false) s → textCodePoints s = s.
Proof.
  unfold textCodePoints.
  induction 1 as [|c s Hc Hs IH]; [done|].
  assert (Hone : or_zero (codePointAt0 [c]) = c).
  { simpl. destruct (Z.eqb_spec c 0); lia. }
  assert (Hstep : Array_from (c :: s) = [c] :: Array_from s).
  { destruct s as [|d s]; [done|].
    change (Array_from (c :: d :: s))
      with (if is_high_surrogate c && is_low_surrogate d
            then [c; d] :: Array_from s else [c] :: Array_from (d :: s)).
    by rewrite Hc. }
  rewrite Hstep. change (map ?f ([c] :: ?l)) with (f [c] :: map f l).
  cbv beta. rewrite Hone. by f_equal.
Qed.

(** X7. A text has at most as many code points as code units (a surrogate
    pair counts once), so a string shorter than [2^32] code units fits an
    array. *)
Theorem code_points_at_most_code_units (text : jsstring) :
  (length (textCodePoints text) ≤ length text)%nat
  ∧ (Z.of_nat (length text) < 2 ^ 32 → fits_array text).
Proof.
  assert (H : (length (textCodePoints text) ≤ length text)%nat).
  { unfold textCodePoints. rewrite length_map. apply Array_from_length. }
  split; [done|]. unfold fits_array. lia.
Qed.

Lemma code_points_at_most_code_units_witness :
  Z.of_nat (length [0xD840; 0xDC00; 0x41]) < 2 ^ 32
  ∧ fits_array [0xD840; 0xDC00; 0x41]
  ∧ length (textCodePoints [0xD840; 0xDC00; 0x41]) = 2%nat.
Proof.
  assert (H : Z.of_nat (length [0xD840; 0xDC00; 0x41]) < 2 ^ 32)
    by (vm_compute; reflexivity).
  split; [exact H|]. split; [|reflexivity].
  apply (code_points_at_most_code_units [0xD840; 0xDC00; 0x41]). exact H.
Defined.

(** ** The threshold in floating point *)

(** X8. The test of line 110, [supportedChars / textCodePoints.length > 0.8]
    in double arithmetic, is exact on every non-empty text that fits an
    array: it holds exactly when five times the covered code points exceed
    four times all code points. A coverage of exactly four fifths fails
    it. *)
Theorem coverage_test_exact (cfg : FontConfigEntry) (text : jsstring) :
  text ≠ [] →
  fits_array text →
  js_gt (js_div (supportedChars (textCodePoints text) (unicodeRanges cfg))
                (Z.of_nat (length (textCodePoints text)))) literal_0_8
  = bool_decide (4 * length (textCodePoints text) < 5 * covered cfg text)%nat.
Proof.
  intros Hne Hfits. rewrite supportedChars_covered.
  assert (Hle := covered_le cfg text).
  assert (Hpos : (0 < length (textCodePoints text))%nat).
  { rewrite <- textCodePoints_nil_iff in Hne.
    destruct (textCodePoints text); simpl; [done|lia]. }
  rewrite threshold_exact by (unfold fits_array in Hfits; lia).
  destruct (Z.ltb_spec (4 * Z.of_nat (length (textCodePoints text)))
                       (5 * Z.of_nat (covered cfg text))).
  - symmetry. apply bool_decide_eq_true. lia.
  - symmetry. apply bool_decide_eq_false. lia.
Qed.

Lemma coverage_test_exact_witness :
  let text := [0x4E2D; 0x6587; 0x5B57; 0x4F53; 0x2E] in
  text ≠ []
  ∧ fits_array text
  ∧ (covered NotoSansSC text = 4 ∧ length (textCodePoints text) = 5)%nat
  ∧ js_gt (js_div (supportedChars (textCodePoints text) (unicodeRanges NotoSansSC))
                  (Z.of_nat (length (textCodePoints text)))) literal_0_8
    = false.
Proof.
  intros text.
  assert (Hne : text ≠ []) by done.
  assert (Hfits : fits_array text) by (vm_compute; reflexivity).
  split; [exact Hne|]. split; [exact Hfits|]. split; [split; reflexivity|].
  rewrite (coverage_test_exact NotoSansSC text Hne Hfits).
  vm_compute. reflexivity.
Defined.

(** ** One font at most clears the threshold *)

Lemma catalog_ranges_disjoint (cp : Z) :
  ¬ (in_ranges (unicodeRanges NotoSansSC) cp ∧ in_ranges (unicodeRanges DejaVuSans) cp).
Proof.
  rewrite <- !isCodePointSupported_spec.
  unfold isCodePointSupported. simpl.
  rewrite !orb_false_r, !orb_true_iff, !andb_true_iff, !Z.leb_le. lia.
Qed.

Lemma filter_disjoint_length {A} (Q1 Q2 : A → Prop)
    `{∀ x, Decision (Q1 x)} `{∀ x, Decision (Q2 x)} (l : list A) :
  (∀ x, ¬ (Q1 x ∧ Q2 x)) →
  (length (filter Q1 l) + length (filter Q2 l) ≤ length l)%nat.
Proof.
  intros Hdis. induction l as [|x l IH]; [done|].
  rewrite !filter_cons.
  destruct (decide (Q1 x)), (decide (Q2 x)); simpl; try lia.
  exfalso. by apply (Hdis x).
Qed.

Lemma covered_sum (text : jsstring) :
  (covered NotoSansSC text + covered DejaVuSans text
   ≤ length (textCodePoints text))%nat.
Proof. unfold covered. apply filter_disjoint_length, catalog_ranges_disjoint. Qed.

Lemma at_most_one_clears (text : jsstring) cfg cfg' :
  text ≠ [] → cfg ∈ FONT_CONFIG → cfg' ∈ FONT_CONFIG →
  clears cfg text → clears cfg' text → cfg = cfg'.
Proof.
  intros Hne Hin Hin' Hc Hc'.
  apply clears_iff in Hc; [|done]. apply clears_iff in Hc'; [|done].
  assert (Hsum := covered_sum text).
  unfold FONT_CONFIG in Hin, Hin'.
  rewrite !elem_of_cons, elem_of_nil in Hin, Hin'.
  destruct Hin as [->|[->|[]]], Hin' as [->|[->|[]]]; try done; lia.
Qed.

Lemma name_inj_catalog cfg cfg' :
  cfg ∈ FONT_CONFIG → cfg' ∈ FONT_CONFIG → name cfg = name cfg' → cfg = cfg'.
Proof.
  intros Hin Hin' Hn. apply findConfig_name in Hin, Hin'.
  rewrite Hn in Hin. congruence.
Qed.

Lemma loaded_in_priority P cfg b :
  cfg ∈ FONT_CONFIG → loaded P cfg = Some b →
  name cfg ∈ fontPriority (new_FontManager P).
Proof.
  intros Hin Hb. rewrite new_FontManager_priority.
  apply list_elem_of_fmap_2, list_elem_of_filter. split; [by eexists|done].
Qed.

(** X9. The ranges of the two catalog fonts do not overlap, so on a non-empty
    text at most one font clears the threshold, and a loaded font that
    clears it is the selection wherever it stands in the priority list:
    on this catalog the first match is the best match. *)
Theorem clearing_font_unique_and_selected (P : Platform) (text : jsstring) :
  text ≠ [] →
  fits_array text →
  (∀ cp, ¬ (in_ranges (unicodeRanges NotoSansSC) cp
            ∧ in_ranges (unicodeRanges DejaVuSans) cp))
  ∧ (∀ cfg cfg', cfg ∈ FONT_CONFIG → cfg' ∈ FONT_CONFIG →
                 clears cfg text → clears cfg' text → cfg = cfg')
  ∧ (∀ cfg b, cfg ∈ FONT_CONFIG → loaded P cfg = Some b → clears cfg text →
              getBestFontForText (new_FontManager P) text = Some b).
Proof.
  intros Hne Hfits. split; [apply catalog_ranges_disjoint|].
  split; [intros cfg cfg'; by apply at_most_one_clears|].
  intros cfg b Hin Hb Hc.
  assert (Hp := loaded_in_priority P cfg b Hin Hb).
  apply list_elem_of_lookup_1 in Hp as [i Hi].
  destruct (select_first_clearing P text i cfg Hne Hfits Hin Hi Hc)
    as (b' & Hb' & Hsel).
  - intros j cfg' Hj Hin' Hj' Hc'.
    assert (cfg = cfg') as <- by by apply (at_most_one_clears text).
    assert (i = j); [|lia].
    by apply (NoDup_lookup _ _ _ _ (priority_NoDup P) Hi Hj').
  - congruence.
Qed.

Lemma clearing_font_unique_and_selected_witness :
  getBestFontForText (new_FontManager TestPlatform.both_fonts) (lit "Hello, world")
  = Some (TestPlatform.file_bytes TestPlatform.dejavuPath).
Proof.
  assert (Hne : lit "Hello, world" ≠ []) by done.
  assert (Hfits : fits_array (lit "Hello, world")) by (vm_compute; reflexivity).
  destruct (clearing_font_unique_and_selected TestPlatform.both_fonts
              (lit "Hello, world") Hne Hfits) as (_ & _ & Hsel).
  apply (Hsel DejaVuSans).
  - unfold FONT_CONFIG. right. left.
  - vm_compute. reflexivity.
  - vm_compute. reflexivity.
Defined.

Lemma ascii_in_latin_ranges (text : jsstring) :
  Forall (λ c, 0 ≤ c < 128) text →
  textCodePoints text = text
  ∧ Forall (in_ranges (unicodeRanges DejaVuSans)) (textCodePoints text).
Proof.
  intros Hascii.
  assert (Hsame : textCodePoints text = text).
  { apply textCodePoints_no_surrogates.
    eapply Forall_impl; [exact Hascii|]. intros c Hc. simpl in Hc.
    unfold is_high_surrogate. apply andb_false_iff. left. apply Z.leb_gt. lia. }
  split; [done|]. rewrite Hsame.
  eapply Forall_impl; [exact Hascii|]. intros c Hc. simpl in Hc.
  exists (0x0000, 0x007F). split; [by left|]. simpl. lia.
Qed.

(** X10. A non-empty ASCII text is set in the Latin font whenever that font
    loaded, whether or not the CJK font, first in priority, loaded too;
    when only the CJK font loaded, the text falls back to it. *)
Theorem ascii_text_font (P : Platform) (text : jsstring) :
  text ≠ [] →
  Z.of_nat (length text) < 2 ^ 32 →
  Forall (λ c, 0 ≤ c < 128) text →
  (∀ b, loaded P DejaVuSans = Some b →
        getBestFontForText (new_FontManager P) text = Some b)
  ∧ (∀ b, loaded P DejaVuSans = None → loaded P NotoSansSC = Some b →
          getBestFontForText (new_FontManager P) text = Some b).
Proof.
  intros Hne Hlen Hascii.
  destruct (ascii_in_latin_ranges text Hascii) as [Hsame Hall].
  assert (Hfits : fits_array text) by (unfold fits_array; by rewrite Hsame).
  assert (Hlatin : clears DejaVuSans text).
  { apply clears_iff; [done|]. unfold covered.
    rewrite (filter_all_length _ _ Hall).
    rewrite <- textCodePoints_nil_iff in Hne.
    destruct (textCodePoints text); simpl; [done|lia]. }
  assert (HinL : DejaVuSans ∈ FONT_CONFIG) by (unfold FONT_CONFIG; right; left).
  assert (HinC : NotoSansSC ∈ FONT_CONFIG) by (unfold FONT_CONFIG; left).
  split.
  - intros b Hb.
    assert (Hp := loaded_in_priority P DejaVuSans b HinL Hb).
    apply list_elem_of_lookup_1 in Hp as [i Hi].
    destruct (select_first_clearing P text i DejaVuSans Hne Hfits HinL Hi Hlatin)
      as (b' & Hb' & Hsel); [|congruence].
    intros j cfg' Hj Hin' Hj' Hc'.
    assert (DejaVuSans = cfg') as <- by by apply (at_most_one_clears text).
    assert (i = j); [|lia].
    by apply (NoDup_lookup _ _ _ _ (priority_NoDup P) Hi Hj').
  - intros b HnoL Hb.
    assert (Hp : fontPriority (new_FontManager P) = [name NotoSansSC]).
    { rewrite new_FontManager_priority. unfold FONT_CONFIG.
      rewrite !filter_cons, filter_nil, Hb, HnoL.
      rewrite decide_True by by eexists.
      rewrite decide_False by (by intros [? [=]]). done. }
    destruct (fallback_first P text (name NotoSansSC) [] Hp)
      as (cfg & b' & Hin & Hn & Hb' & Hsel).
    + rewrite Hp. apply priorityLoop_none; [done|done|].
      intros n cfg Hn Hf Hc. apply list_elem_of_singleton in Hn as ->.
      apply findConfig_Some in Hf as [Hin Hname].
      assert (cfg = NotoSansSC) as -> by by apply name_inj_catalog.
      by assert (NotoSansSC = DejaVuSans) by by apply (at_most_one_clears text).
    + assert (cfg = NotoSansSC) as -> by by apply name_inj_catalog.
      congruence.
Qed.

Lemma ascii_text_font_witness :
  getBestFontForText (new_FontManager TestPlatform.latin_only) (lit "report 2024")
  = Some (TestPlatform.file_bytes TestPlatform.dejavuPath).
Proof.
  assert (Hne : lit "report 2024" ≠ []) by done.
  assert (Hlen : Z.of_nat (length (lit "report 2024")) < 2 ^ 32)
    by (vm_compute; reflexivity).
  assert (Hascii : Forall (λ c, 0 ≤ c < 128) (lit "report 2024")).
  { apply (bool_decide_unpack _). by vm_compute. }
  destruct (ascii_text_font TestPlatform.latin_only (lit "report 2024")
              Hne Hlen Hascii) as [Hlatin _].
  apply Hlatin. vm_compute. reflexivity.
Defined.

(** ** Paragraphs *)

Lemma content_app (a b : jsstring) : content (a ++ b) = content a ++ content b.
Proof. unfold content. apply filter_app. Qed.

Lemma content_blank (s : jsstring) : blank s → content s = [].
Proof.
  unfold content. induction 1 as [|c s Hc _ IH]; [done|].
  rewrite filter_cons, decide_False by congruence. done.
Qed.

Lemma content_nil_blank (s : jsstring) : content s = [] → blank s.
Proof.
  unfold content, blank. induction s as [|c s IH]; [constructor|].
  rewrite filter_cons. destruct (decide (is_whitespace c = false)) as [Hc|Hc]; [done|].
  intros H. constructor; [by destruct (is_whitespace c)|by apply IH].
Qed.

Lemma blank_app (a b : jsstring) : blank (a ++ b) ↔ blank a ∧ blank b.
Proof. unfold blank. apply Forall_app. Qed.

Lemma blank_rev (s : jsstring) : blank s → blank (rev s).
Proof.
  unfold blank. rewrite !Forall_forall. intros H c Hc. apply H.
  by rewrite list_elem_of_In, in_rev, <- list_elem_of_In.
Qed.

(** [trim] takes white space off both ends and nothing else. *)
Lemma trim_decompose (s : jsstring) :
  ∃ w1 w2, blank w1 ∧ blank w2 ∧ s = w1 ++ trim s ++ w2.
Proof.
  destruct (trimStart_suffix s) as (w1 & Hw1 & Hs).
  destruct (trimStart_suffix (rev (trimStart s))) as (w2 & Hw2 & Hr).
  exists w1, (rev w2). split; [done|]. split; [by apply blank_rev|].
  unfold trim, trimEnd.
  rewrite <- rev_app_distr, <- Hr, rev_involutive. exact Hs.
Qed.

Lemma content_trim (s : jsstring) : content (trim s) = content s.
Proof.
  destruct (trim_decompose s) as (w1 & w2 & H1 & H2 & Hs).
  rewrite Hs at 2. rewrite !content_app, (content_blank w1), (content_blank w2) by done.
  by rewrite app_nil_r.
Qed.

Lemma trim_head (s : jsstring) c rest :
  trim s = c :: rest → is_whitespace c = false.
Proof.
  intros Ht.
  destruct (trimStart s) as [|c0 t0] eqn:Hs.
  { unfold trim, trimEnd in Ht. rewrite Hs in Ht. done. }
  assert (Hc0 := trimStart_head _ _ _ Hs).
  destruct (trimStart_suffix (rev (c0 :: t0))) as (w & Hw & Hr).
  unfold trim, trimEnd in Ht. rewrite Hs in Ht.
  apply (f_equal (@rev Z)) in Hr. rewrite rev_involutive, rev_app_distr, Ht in Hr.
  simpl in Hr. injection Hr as -> _. done.
Qed.

Lemma trim_last (s : jsstring) front c :
  trim s = front ++ [c] → is_whitespace c = false.
Proof.
  unfold trim, trimEnd. intros Ht.
  apply (f_equal (@rev Z)) in Ht. rewrite rev_involutive, rev_app_distr in Ht.
  simpl in Ht. by apply trimStart_head in Ht.
Qed.

(** The separator match covers white space only. *)
Lemma separatorTail_blank (s : jsstring) n :
  separatorTail s = Some n →
  (1 ≤ n ≤ length s)%nat ∧ blank (take n s).
Proof.
  revert n. induction s as [|c s IH]; intros n; simpl; [done|].
  destruct (is_whitespace c) eqn:Hc; [|done].
  destruct (separatorTail s) as [m|] eqn:Hm.
  - intros [= <-]. destruct (IH m eq_refl) as [Hlen Hb].
    split; [lia|]. simpl. by constructor.
  - destruct (c =? 10); [|done]. intros [= <-].
    split; [lia|]. simpl. rewrite take_0. by repeat constructor.
Qed.

Lemma splitLoop_content (s : jsstring) : ∀ cur skip,
  blank (take skip s) →
  content (concat (splitLoop cur skip s)) = content (rev cur) ++ content (drop skip s).
Proof.
  induction s as [|c s IH]; intros cur skip Hskip.
  - simpl. rewrite app_nil_r, drop_nil. unfold content at 3. simpl.
    by rewrite app_nil_r.
  - destruct skip as [|k].
    + cbn [splitLoop]. rewrite drop_0.
      assert (Hkeep : content (concat (splitLoop (c :: cur) 0 s))
                      = content (rev cur) ++ content (c :: s)).
      { rewrite IH by (rewrite take_0; constructor).
        rewrite drop_0. simpl rev. rewrite content_app, <- app_assoc.
        f_equal. by rewrite <- content_app. }
      destruct (c =? 10) eqn:Hc; [|exact Hkeep].
      destruct (separatorTail s) as [n|] eqn:Hn; [|exact Hkeep].
      apply Z.eqb_eq in Hc. subst c.
      destruct (separatorTail_blank s n Hn) as [_ Hb].
      simpl concat. rewrite content_app, IH by done.
      simpl rev. unfold content at 2. simpl filter.
      change (filter (λ c, is_whitespace c = false) (drop n s)) with (content (drop n s)).
      f_equal.
      change (10 :: s) with ([10] ++ s). rewrite content_app.
      rewrite (content_blank [10]) by by repeat constructor.
      rewrite <- (take_drop n s) at 2.
      by rewrite content_app, (content_blank (take n s)).
    + cbn [splitLoop]. simpl in Hskip. apply Forall_cons in Hskip as [Hc Hk].
      rewrite IH by done. simpl drop. done.
Qed.

(** Splitting into paragraphs loses white space only. *)
Lemma paragraphs_content (text : jsstring) :
  content (concat (paragraphsOf text)) = content text.
Proof.
  unfold paragraphsOf.
  assert (Hfilter : ∀ l : list jsstring,
            content (concat (List.filter (λ p, truthy (trim p)) l))
            = content (concat l)).
  { induction l as [|p l IH]; [done|]. simpl.
    destruct (truthy (trim p)) eqn:Hp; simpl; rewrite !content_app, IH; [done|].
    assert (blank p).
    { apply trim_nil_iff. by destruct (trim p). }
    by rewrite (content_blank p). }
  rewrite Hfilter. unfold splitParagraphs.
  rewrite splitLoop_content by (rewrite take_0; constructor).
  by rewrite drop_0.
Qed.

Lemma paragraphs_nonblank (text : jsstring) p :
  p ∈ paragraphsOf text → ¬ blank p.
Proof.
  unfold paragraphsOf. rewrite list_elem_of_In, filter_In.
  intros [_ Hp] Hb. by rewrite (trim_blank p Hb) in Hp.
Qed.

Lemma separatorTail_app (a b : jsstring) n :
  separatorTail a = Some n → is_Some (separatorTail (a ++ b)).
Proof.
  revert n. induction a as [|c a IH]; intros n; simpl; [done|].
  destruct (is_whitespace c); [|done].
  destruct (separatorTail a) as [m|] eqn:Hm.
  - intros _. destruct (IH m eq_refl) as [k ->]. by eexists.
  - destruct (c =? 10); [|done]. intros _.
    destruct (separatorTail (a ++ b)); by eexists.
Qed.

Lemma has_blank_line_infix (w1 s w2 : jsstring) :
  has_blank_line s → has_blank_line (w1 ++ s ++ w2).
Proof.
  intros (before & after & n & -> & Hn).
  destruct (separatorTail_app after w2 n Hn) as [m Hm].
  exists (w1 ++ before), (after ++ w2), m. split; [|done].
  by rewrite <- !app_assoc.
Qed.

Lemma splitLoop_no_blank_line (s : jsstring) : ∀ cur skip,
  skip = 0%nat ∨ cur = [] →
  (∀ before after, rev cur = before ++ 10 :: after →
                   separatorTail (after ++ s) = None) →
  Forall (λ p, ¬ has_blank_line p) (splitLoop cur skip s).
Proof.
  induction s as [|c s IH]; intros cur skip Hmode Hinv.
  - simpl. constructor; [|constructor].
    intros (before & after & n & Hcur & Hn).
    specialize (Hinv before after Hcur). rewrite app_nil_r in Hinv. congruence.
  - destruct skip as [|k].
    + cbn [splitLoop].
      assert (Hkeep : (c = 10 → separatorTail s = None) →
                      Forall (λ p, ¬ has_blank_line p) (splitLoop (c :: cur) 0 s)).
      { intros Hc. apply IH; [by left|].
        intros before after Hrev. simpl in Hrev.
        destruct after as [|x after _] using rev_ind.
        - apply app_inj_tail in Hrev as [_ ->]. by apply Hc.
        - rewrite app_comm_cons, app_assoc in Hrev.
          apply app_inj_tail in Hrev as [Hrev ->].
          rewrite <- app_assoc. by apply (Hinv before). }
      destruct (Z.eqb_spec c 10) as [->|Hc]; [|apply Hkeep; congruence].
      destruct (separatorTail s) as [n|] eqn:Hn; [|by apply Hkeep].
      constructor.
      * intros (before & after & m & Hcur & Hm).
        specialize (Hinv before after Hcur).
        destruct (separatorTail_app after (10 :: s) m Hm) as [k Hk]. congruence.
      * apply IH; [by right|]. intros before after Hrev.
        by destruct before.
    + cbn [splitLoop]. destruct Hmode as [Hz| ->]; [done|].
      apply IH; [by right|]. intros before after Hrev. by destruct before.
Qed.

Lemma paragraphs_no_blank_line (text : jsstring) :
  Forall (λ p, ¬ has_blank_line p) (paragraphsOf text).
Proof.
  unfold paragraphsOf, splitParagraphs.
  assert (H := splitLoop_no_blank_line text [] 0 (or_introl eq_refl)).
  rewrite Forall_forall in *. intros p Hp.
  rewrite list_elem_of_In, filter_In, <- list_elem_of_In in Hp.
  destruct Hp as [Hp _]. apply H; [|done].
  intros before after Hrev. by destruct before.
Qed.

Lemma paragraphs_nil_iff (text : jsstring) : paragraphsOf text = [] ↔ blank text.
Proof.
  split.
  - intros Hnil. apply content_nil_blank.
    by rewrite <- paragraphs_content, Hnil.
  - intros Hb. destruct (paragraphsOf text) as [|p l] eqn:Hp; [done|]. exfalso.
    assert (Hc := paragraphs_content text).
    rewrite (content_blank text Hb), Hp in Hc. simpl in Hc.
    rewrite content_app in Hc. apply app_eq_nil in Hc as [Hc _].
    apply content_nil_blank in Hc.
    apply (paragraphs_nonblank text p); [rewrite Hp; by left|done].
Qed.

(** X11. The paragraphs of a text ([split] on blank lines, blank pieces
    dropped) keep every code unit that is not white space, in order; no
    paragraph is blank and none contains a blank line; and there is no
    paragraph exactly when the text is blank. *)
Theorem paragraphs_keep_the_text (text : jsstring) :
  content (concat (paragraphsOf text)) = content text
  ∧ Forall (λ p, ¬ blank p ∧ ¬ has_blank_line p) (paragraphsOf text)
  ∧ (paragraphsOf text = [] ↔ blank text).
Proof.
  split; [apply paragraphs_content|]. split; [|apply paragraphs_nil_iff].
  assert (H := paragraphs_no_blank_line text).
  rewrite Forall_forall in *. intros p Hp.
  split; [by apply (paragraphs_nonblank text)|by apply H].
Qed.

(** ** Rendering the text *)

Lemma trim_idempotent (s : jsstring) : trim (trim s) = trim s.
Proof.
  remember (trim s) as t eqn:Ht. symmetry in Ht.
  destruct t as [|c rest]; [reflexivity|].
  assert (Hhead := trim_head s c rest Ht).
  destruct (@exists_last _ (c :: rest)) as (front & x & Hfx); [done|].
  assert (Hlast : is_whitespace x = false).
  { apply (trim_last s front x). by rewrite Ht. }
  unfold trim. simpl trimStart. rewrite Hhead. unfold trimEnd.
  rewrite Hfx, rev_app_distr. simpl. rewrite Hlast.
  simpl. by rewrite rev_involutive.
Qed.

Section TextRendering.

Variable P : Platform.
Variable fm : FontManager.

Lemma emitParagraph_ok paragraph doc :
  (∀ d c, (∀ b o, c ≠ EmbedImage b o) → (∀ b, c ≠ SetFont (FontBuffer b)) →
          pdf_throws P d c = None) →
  existsb is_AddPage doc = true →
  emitParagraph P paragraph doc
  = (Ok tt, doc ++ [FontSize 12;
                    Text (trim paragraph) (paragraphOptions (page_width P));
                    MoveDown (1 # 2)]).
Proof.
  intros Hacc Hpage. unfold emitParagraph, get_page_width.
  erewrite bind_ok; [|by apply call_accepted, Hacc].
  erewrite bind_ok; [|by apply page_prop_ok, has_page_app].
  erewrite bind_ok; [|by apply call_accepted, Hacc].
  rewrite call_accepted by by apply Hacc.
  by rewrite <- !app_assoc.
Qed.

(** A paragraph, when the renderer accepts the selected font. *)
Lemma processParagraph_calls paragraph doc :
  only_images_fail P →
  existsb is_AddPage doc = true →
  truthy (trim paragraph) = true →
  processParagraph P fm paragraph doc
  = (Ok tt, doc ++ paragraphCalls P (fontSource (getBestFontForText fm paragraph))
                                  paragraph).
Proof.
  intros Honly Hpage Hp. unfold processParagraph. rewrite Hp.
  change (negb true) with false. cbv iota zeta.
  apply try_catch_ok. rewrite applyFont_call.
  erewrite bind_ok; [|by apply call_accepted, Honly].
  rewrite emitParagraph_ok; [by rewrite <- app_assoc| |by apply has_page_app].
  intros d c Hc _. by apply Honly.
Qed.

(** A paragraph, when the renderer rejects every font buffer: the [catch]
    block renders it in Helvetica. *)
Lemma processParagraph_helvetica paragraph doc :
  rejects_custom_fonts P →
  existsb is_AddPage doc = true →
  truthy (trim paragraph) = true →
  processParagraph P fm paragraph doc
  = (Ok tt, doc ++ paragraphCalls P (FontByName (lit "Helvetica")) paragraph).
Proof.
  intros [Hrej Hacc] Hpage Hp. unfold processParagraph. rewrite Hp.
  change (negb true) with false. cbv iota zeta.
  assert (Hemit : ∀ d, existsb is_AddPage d = true →
            emitParagraph P paragraph d
            = (Ok tt, d ++ [FontSize 12;
                            Text (trim paragraph) (paragraphOptions (page_width P));
                            MoveDown (1 # 2)])).
  { intros d Hd. apply emitParagraph_ok; [|done].
    intros d' c _ Hc. by apply Hacc. }
  assert (Hhelv : ∀ d, pdf_throws P d (SetFont (FontByName (lit "Helvetica"))) = None).
  { intros d. apply Hacc. intros b. discriminate. }
  destruct (getBestFontForText fm paragraph) as [b|].
  - destruct (Hrej doc b) as [e He].
    rewrite (try_catch_throw _ _ _ e doc).
    + erewrite bind_ok; [|by apply call_accepted].
      rewrite Hemit by by apply has_page_app. by rewrite <- app_assoc.
    + simpl applyFont. apply bind_throw. by apply call_refused.
  - apply try_catch_ok. simpl applyFont.
    erewrite bind_ok; [|by apply call_accepted].
    rewrite Hemit by by apply has_page_app. by rewrite <- app_assoc.
Qed.

Lemma for_of_paragraphs (calls : jsstring → list PdfCall) (ps : list jsstring) :
  (∀ p d, p ∈ ps → existsb is_AddPage d = true →
          processParagraph P fm p d = (Ok tt, d ++ calls p)) →
  ∀ doc, existsb is_AddPage doc = true →
  for_of ps (processParagraph P fm) doc = (Ok tt, doc ++ concat (calls <$> ps)).
Proof.
  induction ps as [|p ps IH]; intros Hstep doc Hpage; simpl.
  - by rewrite app_nil_r.
  - erewrite bind_ok; [|apply Hstep; [by left|done]].
    rewrite IH; [by rewrite <- app_assoc| |by apply has_page_app].
    intros q d Hq. apply Hstep. by right.
Qed.

Lemma paragraphsOf_truthy (text : jsstring) p :
  p ∈ paragraphsOf text → truthy (trim p) = true.
Proof.
  unfold paragraphsOf. rewrite list_elem_of_In, filter_In. by intros [_ ?].
Qed.

End TextRendering.

Lemma rendered_paragraphs_content P (src : jsstring → FontSource) (ps : list jsstring) :
  content (concat (textOf <$> concat ((λ p, paragraphCalls P (src p) p) <$> ps)))
  = content (concat ps).
Proof.
  induction ps as [|p ps IH]; [done|].
  rewrite !fmap_cons. cbn [concat]. rewrite fmap_app, concat_app, !content_app, IH.
  f_equal. unfold paragraphCalls. rewrite !fmap_cons. cbn [concat textOf fmap list_fmap].
  rewrite !app_nil_l, app_nil_r. apply content_trim.
Qed.

(** X12. With a page present and a renderer on which only image embedding can
    fail, [processTextWithFonts] issues, for each paragraph in order, the
    selected font, size 12, the trimmed paragraph and half a line of
    space, and nothing else. It adds no page; what it puts on the page is
    the text without its white space between and around paragraphs; and
    each string it emits is non-empty, trimmed and free of blank lines. *)
Theorem text_is_rendered_by_paragraph (P : Platform) (fm : FontManager)
    (text : jsstring) (doc : list PdfCall) :
  only_images_fail P →
  existsb is_AddPage doc = true →
  let calls :=
    concat ((λ p, paragraphCalls P (fontSource (getBestFontForText fm p)) p)
            <$> paragraphsOf text) in
  processTextWithFonts P text fm doc = (Ok tt, doc ++ calls)
  ∧ Forall (λ c, is_AddPage c = false) calls
  ∧ content (concat (textOf <$> calls)) = content text
  ∧ Forall (λ c, ∀ s o, c = Text s o →
               s ≠ [] ∧ trim s = s ∧ ¬ has_blank_line s) calls.
Proof.
  intros Honly Hpage calls. subst calls. split; [|split; [|split]].
  - unfold processTextWithFonts. fold (paragraphsOf text).
    apply for_of_paragraphs; [|done].
    intros p d Hp Hd. apply processParagraph_calls; try done.
    by apply (paragraphsOf_truthy text).
  - apply Forall_concat, Forall_fmap, Forall_forall. intros p _.
    by repeat constructor.
  - rewrite (rendered_paragraphs_content P (λ p, fontSource (getBestFontForText fm p))).
    apply paragraphs_content.
  - apply Forall_concat, Forall_fmap, Forall_forall. intros p Hp. simpl.
    assert (Htrim := paragraphsOf_truthy text p Hp).
    assert (Hnb := paragraphs_no_blank_line text).
    rewrite Forall_forall in Hnb. specialize (Hnb p Hp).
    apply Forall_forall. intros c Hc s o ->.
    unfold paragraphCalls in Hc. rewrite !elem_of_cons, elem_of_nil in Hc.
    destruct Hc as [[=]|[[=]|[[= -> _]|[[=]|[]]]]].
    split; [by apply truthy_true_iff|]. split; [apply trim_idempotent|].
    intros Hbl. apply Hnb.
    destruct (trim_decompose p) as (w1 & w2 & _ & _ & Hdec).
    rewrite Hdec. by apply has_blank_line_infix.
Qed.

Lemma text_is_rendered_by_paragraph_witness :
  only_images_fail TestPlatform.both_fonts
  ∧ processTextWithFonts TestPlatform.both_fonts
      [32; 72; 105; 10; 32; 10; 10; 20320; 22909; 32; 10]
      (new_FontManager TestPlatform.both_fonts) [AddPage]
    = (Ok tt,
       [AddPage;
        SetFont (FontBuffer (TestPlatform.file_bytes TestPlatform.dejavuPath));
        FontSize 12;
        Text [72; 105] (paragraphOptions 612);
        MoveDown (1 # 2);
        SetFont (FontBuffer (TestPlatform.file_bytes TestPlatform.notoPath));
        FontSize 12;
        Text [20320; 22909] (paragraphOptions 612);
        MoveDown (1 # 2)]).
Proof.
  assert (Honly : only_images_fail TestPlatform.both_fonts).
  { intros doc c _. reflexivity. }
  split; [exact Honly|].
  destruct (text_is_rendered_by_paragraph TestPlatform.both_fonts
              (new_FontManager TestPlatform.both_fonts)
              [32; 72; 105; 10; 32; 10; 10; 20320; 22909; 32; 10]
              [AddPage] Honly eq_refl) as (Hcalls & _).
  rewrite Hcalls. vm_compute. reflexivity.
Defined.

(** X13. When the renderer rejects every font given as a buffer (a font file
    it cannot parse) and accepts every other call, no paragraph is lost:
    each is rendered in Helvetica by the [catch] block, whichever font
    was selected. *)
Theorem rejected_font_falls_back_to_helvetica (P : Platform) (fm : FontManager)
    (text : jsstring) (doc : list PdfCall) :
  rejects_custom_fonts P →
  existsb is_AddPage doc = true →
  processTextWithFonts P text fm doc
  = (Ok tt, doc ++ concat (paragraphCalls P (FontByName (lit "Helvetica"))
                           <$> paragraphsOf text)).
Proof.
  intros Hrej Hpage. unfold processTextWithFonts. fold (paragraphsOf text).
  apply for_of_paragraphs; [|done].
  intros p d Hp Hd. apply processParagraph_helvetica; try done.
  by apply (paragraphsOf_truthy text).
Qed.

Lemma rejected_font_falls_back_to_helvetica_witness :
  rejects_custom_fonts Fixtures.corrupt_fonts
  ∧ processTextWithFonts Fixtures.corrupt_fonts (lit "Hello world")
      (new_FontManager Fixtures.corrupt_fonts) [AddPage]
    = (Ok tt,
       [AddPage;
        SetFont (FontByName (lit "Helvetica"));
        FontSize 12;
        Text (lit "Hello world") (paragraphOptions 612);
        MoveDown (1 # 2)]).
Proof.
  assert (Hrej : rejects_custom_fonts Fixtures.corrupt_fonts).
  { split.
    - intros doc b. by eexists.
    - intros doc c Hc. destruct c as [|[b|n]| | | |]; try reflexivity.
      by destruct (Hc b). }
  split; [exact Hrej|].
  rewrite (rejected_font_falls_back_to_helvetica Fixtures.corrupt_fonts
             (new_FontManager Fixtures.corrupt_fonts) (lit "Hello world")
             [AddPage] Hrej eq_refl).
  vm_compute. reflexivity.
Defined.

(** ** Image placeholders and a rejected font *)

(** X14. The placeholder of an unsupported image has no fallback font: when
    the renderer rejects every font buffer and some catalog font loaded,
    the placeholder's font call throws inside the [try] block, the
    [catch] block selects a loaded font again and throws too, and
    [processImage] ends in an exception, the new page being all it
    added. *)
Theorem placeholder_aborts_on_rejected_font (P : Platform) (img : Image)
    (doc : list PdfCall) :
  rejects_custom_fonts P →
  fontPriority (new_FontManager P) ≠ [] →
  ¬ supportedImage img →
  ∃ e, processImage P (new_FontManager P) img doc = (Throw e, doc ++ [AddPage]).
Proof.
  intros [Hrej Hacc] Hfonts Hun.
  assert (Hline : ∀ errorText d,
            ∃ e, placeholderLine P (new_FontManager P) errorText d = (Throw e, d)).
  { intros errorText d. unfold placeholderLine.
    destruct (selection_is_Some P errorText Hfonts) as [b ->].
    destruct (Hrej d b) as [e He]. exists e.
    simpl applyFont. apply bind_throw. by apply call_refused. }
  unfold processImage.
  erewrite bind_ok; [|apply call_accepted, Hacc; intros b; discriminate].
  assert (Hno : str_eqb (contentType img) (lit "image/jpeg")
                || str_eqb (contentType img) (lit "image/png") = false).
  { apply orb_false_iff. split; apply not_true_iff_false;
      rewrite str_eqb_eq; intros H; apply Hun; [by left|by right]. }
  rewrite Hno.
  destruct (Hline (lit "[Unsupported image type: " ++ contentType img ++ lit "]")
                  (doc ++ [AddPage])) as [e1 He1].
  rewrite (try_catch_throw _ _ _ e1 (doc ++ [AddPage]) He1).
  apply Hline.
Qed.

Lemma placeholder_aborts_on_rejected_font_witness :
  ∃ e, processImage Fixtures.corrupt_fonts
         (new_FontManager Fixtures.corrupt_fonts) TestPlatform.bmp []
       = (Throw e, [AddPage]).
Proof.
  apply (placeholder_aborts_on_rejected_font Fixtures.corrupt_fonts
           TestPlatform.bmp []).
  - split.
    + intros doc b. by eexists.
    + intros doc c Hc. destruct c as [|[b|n]| | | |]; try reflexivity.
      by destruct (Hc b).
  - vm_compute. discriminate.
  - intros [H|H]; discriminate H.
Defined.

(** ** More on the server action *)

Lemma includes_truthy (s p : jsstring) :
  p ≠ [] → includes s p = true → truthy s = true.
Proof. intros Hp. destruct s; [|done]. by destruct p. Qed.

Lemma catchBlock_message (e : Error) :
  catchBlock e
  = error_output
      (if includes (message e) (lit "Unrecognised Office Open XML")
       then lit "The uploaded file does not appear to be a valid .docx file or is corrupted."
       else lit "Failed to convert Word document. " ++ message e).
Proof.
  unfold catchBlock. cbv zeta.
  destruct (includes (message e) (lit "Unrecognised Office Open XML")) eqn:Hi.
  - assert (Hp : lit "Unrecognised Office Open XML" ≠ []) by done.
    by rewrite (includes_truthy _ _ Hp Hi).
  - by rewrite andb_false_r.
Qed.

(** X15. A failure of either extraction step never rejects and never yields a
    PDF: the action resolves with the friendly message when the error
    text mentions [Unrecognised Office Open XML] and with the generic
    prefix followed by the error text otherwise. *)
Theorem extraction_failure_reported (P : Platform) (this : ThisValue)
    (input : ConvertWordToPdfInput) (e : Error) :
  docxFileBase64 input ≠ [] →
  Buffer_from_base64 P (docxFileBase64 input) ≠ [] →
  mammoth_extractRawText P (Buffer_from_base64 P (docxFileBase64 input)) = Throw e
  ∨ (∃ textContent,
       mammoth_extractRawText P (Buffer_from_base64 P (docxFileBase64 input))
       = Ok textContent
       ∧ ¬ blank textContent
       ∧ mammoth_convertToHtml P (Buffer_from_base64 P (docxFileBase64 input))
         = Throw e) →
  convertWordToPdfAction P this input
  = Fulfilled
      {| pdfDataUri := None;
         error := Some
           (if includes (message e) (lit "Unrecognised Office Open XML")
            then lit "The uploaded file does not appear to be a valid .docx file or is corrupted."
            else lit "Failed to convert Word document. " ++ message e) |}.
Proof.
  intros Hb64 Hbuf Hfail. unfold convertWordToPdfAction, tryBlock.
  apply truthy_true_iff in Hb64. rewrite Hb64. simpl.
  destruct (Buffer_from_base64 P (docxFileBase64 input)) as [|b0 bs]; [done|].
  simpl. destruct Hfail as [-> | (textContent & -> & Hnb & ->)].
  - by rewrite catchBlock_message.
  - assert (Htrim : truthy (trim textContent) = true).
    { apply truthy_true_iff. by rewrite trim_nil_iff. }
    rewrite Htrim. simpl. by rewrite catchBlock_message.
Qed.

Lemma extraction_failure_reported_witness :
  convertWordToPdfAction Fixtures.not_a_docx ThisUndefined TestPlatform.request
  = Fulfilled
      {| pdfDataUri := None;
         error := Some (lit "The uploaded file does not appear to be a valid .docx file or is corrupted.") |}.
Proof.
  rewrite (extraction_failure_reported Fixtures.not_a_docx ThisUndefined
             TestPlatform.request
             (mkError (lit "Could not find file in options; Unrecognised Office Open XML document"))).
  - reflexivity.
  - vm_compute. discriminate.
  - vm_compute. discriminate.
  - left. reflexivity.
Defined.

(** *** The document only grows *)

Lemma appends_ret {A} (a : A) : appends (ret a).
Proof. intros doc. exists []. simpl. by rewrite app_nil_r. Qed.

Lemma appends_throw {A} (e : Error) : appends (@throw A e).
Proof. intros doc. exists []. simpl. by rewrite app_nil_r. Qed.

Lemma appends_call P c : appends (call P c).
Proof.
  intros doc. unfold call. destruct (pdf_throws P doc c).
  - exists []. simpl. by rewrite app_nil_r.
  - by exists [c].
Qed.

Lemma appends_page_prop prop v : appends (page_prop prop v).
Proof.
  intros doc. unfold page_prop. exists [].
  destruct (existsb is_AddPage doc); simpl; by rewrite app_nil_r.
Qed.

Lemma appends_bind {A B} (m : PDF A) (k : A → PDF B) :
  appends m → (∀ a, appends (k a)) → appends (bind m k).
Proof.
  intros Hm Hk doc. unfold bind. destruct (Hm doc) as [x Hx].
  destruct (m doc) as [[a|e] d]; simpl in Hx; subst d.
  - destruct (Hk a (doc ++ x)) as [y Hy]. exists (x ++ y).
    by rewrite Hy, app_assoc.
  - by exists x.
Qed.

Lemma appends_try_catch {A} (body : PDF A) handler :
  appends body → (∀ e, appends (handler e)) → appends (try_catch body handler).
Proof.
  intros Hm Hk doc. unfold try_catch. destruct (Hm doc) as [x Hx].
  destruct (body doc) as [[a|e] d]; simpl in Hx; subst d.
  - by exists x.
  - destruct (Hk e (doc ++ x)) as [y Hy]. exists (x ++ y).
    by rewrite Hy, app_assoc.
Qed.

Lemma appends_for_of {A} (xs : list A) (body : A → PDF unit) :
  (∀ x, appends (body x)) → appends (for_of xs body).
Proof.
  intros Hbody. induction xs as [|x xs IH]; simpl.
  - apply appends_ret.
  - apply appends_bind; [apply Hbody|]. intros _. apply IH.
Qed.

Lemma appends_applyFont P selection : appends (applyFont P selection).
Proof. destruct selection; apply appends_call. Qed.

Lemma appends_emitParagraph P paragraph : appends (emitParagraph P paragraph).
Proof.
  unfold emitParagraph, get_page_width.
  repeat (first [apply appends_call | apply appends_page_prop
                | apply appends_bind; [|intros ?]]).
Qed.

Lemma appends_processTextWithFonts P text fm :
  appends (processTextWithFonts P text fm).
Proof.
  unfold processTextWithFonts. apply appends_for_of. intros p.
  unfold processParagraph. destruct (negb _); [apply appends_ret|].
  apply appends_try_catch.
  - apply appends_bind; [apply appends_applyFont|]. intros _.
    apply appends_emitParagraph.
  - intros e. apply appends_bind; [apply appends_call|]. intros _.
    apply appends_emitParagraph.
Qed.

Lemma appends_placeholderLine P fm errorText :
  appends (placeholderLine P fm errorText).
Proof.
  unfold placeholderLine.
  apply appends_bind; [apply appends_applyFont|]. intros _.
  apply appends_bind; [apply appends_call|]. intros _. apply appends_call.
Qed.

Lemma appends_processImages P images fm : appends (processImages P images fm).
Proof.
  unfold processImages. apply appends_for_of. intros img. unfold processImage.
  apply appends_bind; [apply appends_call|]. intros _.
  apply appends_try_catch.
  - destruct (_ || _); [|apply appends_placeholderLine].
    unfold get_page_width, get_page_height.
    repeat (first [apply appends_call | apply appends_page_prop
                  | apply appends_bind; [|intros ?]]).
  - intros e. apply appends_placeholderLine.
Qed.

Lemma appends_buildDocument P this text images fm :
  appends (buildDocument P this text images fm).
Proof.
  unfold buildDocument.
  apply appends_bind; [apply appends_call|]. intros _.
  apply appends_bind.
  - unfold this_call. destruct this as [| |t i]; try apply appends_throw.
    destruct (hasText _); [apply appends_processTextWithFonts|apply appends_throw].
  - intros _. destruct (0 <? length images)%nat; [|apply appends_ret].
    unfold this_call. destruct this as [| |t i]; try apply appends_throw.
    destruct (hasImages _); [apply appends_processImages|apply appends_throw].
Qed.

Lemma buildDocument_shape P this text images fm doc :
  buildDocument P this text images fm [] = (Ok tt, doc) →
  hasText this = true ∧ ∃ doc', doc = AddPage :: doc'.
Proof.
  unfold buildDocument. intros Hb.
  unfold bind at 1 in Hb. unfold call at 1 in Hb.
  destruct (pdf_throws P [] AddPage); [done|]. simpl app in Hb.
  assert (Hrest := appends_bind
            (this_call this "processTextWithFonts" hasText
               (processTextWithFonts P text fm))
            (λ _, if (0 <? length images)%nat
                  then this_call this "processImages" hasImages
                         (processImages P images fm)
                  else ret tt)).
  destruct Hrest with (doc := [AddPage]) as [added Hadded].
  - unfold this_call. destruct this as [| |t i]; try apply appends_throw.
    destruct (hasText _); [apply appends_processTextWithFonts|apply appends_throw].
  - intros _. destruct (0 <? length images)%nat; [|apply appends_ret].
    unfold this_call. destruct this as [| |t i]; try apply appends_throw.
    destruct (hasImages _); [apply appends_processImages|apply appends_throw].
  - rewrite Hb in Hadded. simpl in Hadded. split; [|by eexists].
    destruct this as [| |t i]; try done. by destruct t.
Qed.

(** X17. A PDF is returned only after the whole pipeline ran: the receiver
    carried the text helper, the text was not blank, the document was
    built without an exception and starts with a page, and the stream
    ended; the data URI is the fixed prefix followed by the base64 text
    of the concatenated chunks, and no error accompanies it. *)
Theorem pdf_only_after_stream_end (P : Platform) (this : ThisValue)
    (input : ConvertWordToPdfInput) (o : ConvertWordToPdfOutput) (uri : jsstring) :
  convertWordToPdfAction P this input = Fulfilled o →
  pdfDataUri o = Some uri →
  ∃ textContent images doc chunks,
    hasText this = true
    ∧ mammoth_extractRawText P (Buffer_from_base64 P (docxFileBase64 input))
      = Ok textContent
    ∧ ¬ blank textContent
    ∧ mammoth_convertToHtml P (Buffer_from_base64 P (docxFileBase64 input))
      = Ok images
    ∧ buildDocument P this textContent images (new_FontManager P) []
      = (Ok tt, AddPage :: doc)
    ∧ pdf_end P (AddPage :: doc) = StreamEnd chunks
    ∧ uri = lit "data:application/pdf;base64,"
            ++ Buffer_toString_base64 P (concat chunks)
    ∧ error o = None.
Proof.
  unfold convertWordToPdfAction, tryBlock.
  destruct (truthy (docxFileBase64 input)); simpl; [|by intros [= <-]].
  destruct (length _ =? 0)%nat; simpl; [by intros [= <-]|].
  destruct (mammoth_extractRawText P _) as [textContent|e]; simpl; [|by intros [= <-]].
  destruct (truthy (trim textContent)) eqn:Htrim; simpl; [|by intros [= <-]].
  destruct (mammoth_convertToHtml P _) as [images|e]; simpl; [|by intros [= <-]].
  destruct (buildDocument P this textContent images _ []) as [[[]|e] doc] eqn:Hb;
    simpl; [|by intros [= <-]].
  unfold finalize. destruct (pdf_end P doc) as [chunks|err|e|] eqn:He; [|done..].
  intros [= <-] [= <-].
  destruct (buildDocument_shape _ _ _ _ _ _ Hb) as [Ht [doc' ->]].
  exists textContent, images, doc', chunks.
  repeat split; try done.
  intros Hblank. apply trim_nil_iff in Hblank. by rewrite Hblank in Htrim.
Qed.

Lemma pdf_only_after_stream_end_witness :
  ∃ textContent images doc chunks,
    hasText (ThisObject true true) = true
    ∧ mammoth_extractRawText TestPlatform.both_fonts
        (Buffer_from_base64 TestPlatform.both_fonts
           (docxFileBase64 TestPlatform.request))
      = Ok textContent
    ∧ ¬ blank textContent
    ∧ mammoth_convertToHtml TestPlatform.both_fonts
        (Buffer_from_base64 TestPlatform.both_fonts
           (docxFileBase64 TestPlatform.request))
      = Ok images
    ∧ buildDocument TestPlatform.both_fonts (ThisObject true true) textContent
        images (new_FontManager TestPlatform.both_fonts) []
      = (Ok tt, AddPage :: doc)
    ∧ pdf_end TestPlatform.both_fonts (AddPage :: doc) = StreamEnd chunks
    ∧ lit "data:application/pdf;base64,JVBERgU="
      = lit "data:application/pdf;base64,"
        ++ Buffer_toString_base64 TestPlatform.both_fonts (concat chunks)
    ∧ error (pdf_output (lit "data:application/pdf;base64,JVBERgU=")) = None.
Proof.
  apply (pdf_only_after_stream_end TestPlatform.both_fonts (ThisObject true true)
           TestPlatform.request
           (pdf_output (lit "data:application/pdf;base64,JVBERgU="))
           (lit "data:application/pdf;base64,JVBERgU=")).
  - vm_compute. reflexivity.
  - reflexivity.
Defined.

(** *** Calls of [addPage()] *)

Lemma addPageCalls_app (a b : list PdfCall) :
  addPageCalls (a ++ b) = (addPageCalls a + addPageCalls b)%nat.
Proof. unfold addPageCalls. by rewrite List.filter_app, length_app. Qed.

Lemma addPageCalls_none (l : list PdfCall) :
  Forall (λ c, is_AddPage c = false) l → addPageCalls l = 0%nat.
Proof.
  unfold addPageCalls. induction 1 as [|c l Hc _ IH]; [done|].
  simpl. by rewrite Hc.
Qed.

Lemma processTextWithFonts_calls P fm text doc :
  only_images_fail P →
  existsb is_AddPage doc = true →
  ∃ calls, processTextWithFonts P text fm doc = (Ok tt, doc ++ calls)
           ∧ addPageCalls calls = 0%nat.
Proof.
  intros Honly Hpage. eexists. split.
  - unfold processTextWithFonts. fold (paragraphsOf text).
    apply (for_of_paragraphs P fm
             (λ p, paragraphCalls P (fontSource (getBestFontForText fm p)) p));
      [|done].
    intros p d Hp Hd. apply processParagraph_calls; try done.
    by apply (paragraphsOf_truthy text).
  - apply addPageCalls_none, Forall_concat, Forall_fmap, Forall_forall.
    intros p _. by repeat constructor.
Qed.

Lemma processImage_one_page P fm img doc :
  only_images_fail P →
  ∃ added, processImage P fm img doc = (Ok tt, doc ++ added)
           ∧ addPageCalls added = 1%nat.
Proof.
  intros Honly. destruct (decide (supportedImage img)) as [Hs|Hn].
  - eexists. split; [by apply processImage_supported|].
    by destruct (pdf_throws P _ _).
  - eexists. split; [by apply processImage_unsupported|]. done.
Qed.

Lemma processImages_page_count P fm images doc :
  only_images_fail P →
  ∃ added, processImages P images fm doc = (Ok tt, doc ++ added)
           ∧ addPageCalls added = length images.
Proof.
  intros Honly. revert doc. induction images as [|img images IH]; intros doc.
  - exists []. simpl. by rewrite app_nil_r.
  - destruct (processImage_one_page P fm img doc Honly) as (a1 & H1 & Hc1).
    destruct (IH (doc ++ a1)) as (a2 & H2 & Hc2).
    exists (a1 ++ a2). unfold processImages in *. simpl.
    erewrite bind_ok; [|exact H1]. rewrite H2, <- app_assoc.
    split; [done|]. rewrite addPageCalls_app. lia.
Qed.

(** X18. With the helpers reachable and a renderer on which only image
    embedding can fail, the document is built without an exception with
    [1 + images.length] calls of [addPage()]: the one before the text and
    one for each image, whatever the images are. (The pages the renderer
    starts by itself when a text overflows are not calls of the code.) *)
Theorem one_addPage_call_per_image (P : Platform) (fm : FontManager)
    (textContent : jsstring) (images : list Image) :
  only_images_fail P →
  ∃ doc,
    buildDocument P (ThisObject true true) textContent images fm []
    = (Ok tt, AddPage :: doc)
    ∧ addPageCalls (AddPage :: doc) = S (length images).
Proof.
  intros Honly. unfold buildDocument.
  erewrite bind_ok; [|apply call_accepted, Honly; intros b o; discriminate].
  simpl app. simpl this_call.
  destruct (processTextWithFonts_calls P fm textContent [AddPage] Honly eq_refl)
    as (calls & Htext & Hcount).
  erewrite bind_ok; [|exact Htext].
  destruct images as [|img images].
  - simpl. exists calls. split; [done|].
    change (AddPage :: calls) with ([AddPage] ++ calls).
    rewrite addPageCalls_app, Hcount. done.
  - change (0 <? length (img :: images))%nat with true. cbv iota.
    destruct (processImages_page_count P fm (img :: images) ([AddPage] ++ calls) Honly)
      as (added & Himgs & Hc).
    rewrite Himgs. exists (calls ++ added). split; [by rewrite <- app_assoc|].
    change (AddPage :: calls ++ added) with ([AddPage] ++ calls ++ added).
    rewrite !addPageCalls_app, Hcount, Hc. done.
Qed.

Lemma one_addPage_call_per_image_witness :
  only_images_fail Fixtures.text_and_images
  ∧ ∃ doc,
      buildDocument Fixtures.text_and_images (ThisObject true true)
        (lit "Hello world")
        [TestPlatform.bmp; TestPlatform.empty_png; TestPlatform.png]
        (new_FontManager Fixtures.text_and_images) []
      = (Ok tt, AddPage :: doc)
      ∧ addPageCalls (AddPage :: doc) = 4%nat.
Proof.
  assert (Honly : only_images_fail Fixtures.text_and_images).
  { intros doc c Hc. destruct c as [| | | | |b o]; try reflexivity.
    by destruct (Hc b o). }
  split; [exact Honly|].
  apply (one_addPage_call_per_image Fixtures.text_and_images
           (new_FontManager Fixtures.text_and_images) (lit "Hello world")
           [TestPlatform.bmp; TestPlatform.empty_png; TestPlatform.png] Honly).
Defined.

(** *** Witnesses for the results on receivers *)

Lemma plain_call_always_error_witness :
  ∃ msg, convertWordToPdfAction TestPlatform.with_images ThisNull
           TestPlatform.request
         = Fulfilled (error_output msg).
Proof.
  apply (plain_call_always_error TestPlatform.with_images ThisNull
           TestPlatform.request).
  right. reflexivity.
Defined.

Lemma bound_helpers_convert_witness :
  ∃ doc chunks,
    pdf_end TestPlatform.both_fonts doc = StreamEnd chunks
    ∧ convertWordToPdfAction TestPlatform.both_fonts (ThisObject true true)
        TestPlatform.request
      = Fulfilled (pdf_output (lit "data:application/pdf;base64,"
                               ++ Buffer_toString_base64 TestPlatform.both_fonts
                                    (concat chunks))).
Proof.
  apply (bound_helpers_convert TestPlatform.both_fonts TestPlatform.request
           (lit "Hello world")).
  - intros doc c. reflexivity.
  - intros doc. by eexists.
  - vm_compute. discriminate.
  - vm_compute. discriminate.
  - reflexivity.
  - intros H. apply trim_nil_iff in H. vm_compute in H. discriminate H.
  - reflexivity.
Defined.

Lemma unfulfilled_only_at_finalization_witness :
  convertWordToPdfAction TestPlatform.failing_stream (ThisObject true true)
    TestPlatform.request
  = Rejected (error_output (lit "Failed to finalize PDF document. write EPIPE")).
Proof.
  destruct (unfulfilled_only_at_finalization TestPlatform.failing_stream
              (ThisObject true true) TestPlatform.request) as [H _].
  apply H.
  exists [AddPage;
          SetFont (FontBuffer (TestPlatform.file_bytes TestPlatform.dejavuPath));
          FontSize 12;
          Text (lit "Hello world") (paragraphOptions 612);
          MoveDown (1 # 2)],
         (mkError (lit "write EPIPE")).
  split; [|split; reflexivity].
  exists (lit "Hello world"), [].
  repeat split; try reflexivity.
  - vm_compute. discriminate.
  - intros Hb. apply trim_nil_iff in Hb. vm_compute in Hb. discriminate Hb.
Defined.

(** ** The page *)



Lemma plain_call_error_nonempty P this input :
  this = ThisUndefined ∨ this = ThisNull →
  ∃ msg, msg ≠ [] ∧ convertWordToPdfAction P this input = Fulfilled (error_output msg).
Proof.
  intros Hthis. unfold convertWordToPdfAction, tryBlock.
  assert (Hcatch : ∀ e, ∃ msg, msg ≠ [] ∧ catchBlock e = error_output msg).
  { intros e. rewrite catchBlock_message.
    destruct (includes _ _); eexists; (split; [|reflexivity]); done. }
  destruct (truthy (docxFileBase64 input)); simpl;
    [|eexists; (split; [|reflexivity]); done].
  destruct (length _ =? 0)%nat; simpl;
    [eexists; (split; [|reflexivity]); done|].
  destruct (mammoth_extractRawText P _) as [textContent|e]; simpl.
  2:{ destruct (Hcatch e) as (msg & Hm & ->). by exists msg. }
  destruct (truthy (trim textContent)); simpl;
    [|eexists; (split; [|reflexivity]); done].
  destruct (mammoth_convertToHtml P _) as [images|e]; simpl.
  2:{ destruct (Hcatch e) as (msg & Hm & ->). by exists msg. }
  destruct (buildDocument_plain_call P this textContent images
              (new_FontManager P) [] Hthis) as (e & doc' & ->).
  simpl. destruct (Hcatch e) as (msg & Hm & ->). by exists msg.
Qed.

(** X19. Selecting files leaves no stale result: afterwards there is neither
    an error nor a converted PDF, the conversion flag is untouched, the
    selected file is the first of the list and only if its type is the
    DOCX media type, and a toast is raised exactly when a first file of
    another type was offered. *)
Theorem handleFileSelected_resets (selectedFiles : list Page.File) (st : Page.State) :
  let '(st', effects) := Page.handleFileSelected selectedFiles st in
  Page.error st' = None
  ∧ Page.convertedPdfUri st' = None
  ∧ Page.isConverting st' = Page.isConverting st
  ∧ (∀ f, Page.file st' = Some f ↔
          head selectedFiles = Some f ∧ Page.type f = Page.docxType)
  ∧ (effects ≠ [] ↔
     ∃ f, head selectedFiles = Some f ∧ Page.type f ≠ Page.docxType).
Proof.
  unfold Page.handleFileSelected. destruct selectedFiles as [|f0 rest].
  - simpl. do 3 (split; [done|]). split.
    + intros f. split; [done|]. by intros [? _].
    + split; [done|]. by intros (f & ? & _).
  - destruct (str_eqb (Page.type f0) Page.docxType) eqn:Heq; simpl.
    + apply str_eqb_eq in Heq. do 3 (split; [done|]). split.
      * intros f. split; [by intros [= <-]|by intros [[= <-] _]].
      * split; [done|]. by intros (f & [= <-] & Hne).
    + assert (Hne : Page.type f0 ≠ Page.docxType).
      { intros H. apply str_eqb_eq in H. congruence. }
      do 3 (split; [done|]). split.
      * intros f. split; [done|]. by intros [[= <-] ?].
      * split; [|done]. intros _. by exists f0.
Qed.

(** X20. Whatever the file, the browser and the server platform, a conversion
    started from the page never delivers a PDF: the handler ends with the
    conversion flag cleared, the file kept, no converted PDF, no download,
    and a non-empty error message. Without a file it raises one toast and
    changes nothing. *)
Theorem handleConvert_never_delivers (B : Page.Browser) (P : Platform)
    (st : Page.State) :
  let '(st', effects) := Page.handleConvert B P st in
  Page.file st' = Page.file st
  ∧ (∀ uri fileName, Page.downloadDataUri uri fileName ∉ effects)
  ∧ (Page.file st = None → st' = st ∧ length effects = 1%nat)
  ∧ (is_Some (Page.file st) →
     Page.isConverting st' = false
     ∧ Page.convertedPdfUri st' = None
     ∧ ∃ msg, msg ≠ [] ∧ Page.error st' = Some msg).
Proof.
  unfold Page.handleConvert. destruct (Page.file st) as [f|] eqn:Hf.
  - destruct (Page.readFileAsArrayBuffer B f) as [arrayBuffer|e].
    + destruct (plain_call_error_nonempty P ThisUndefined
                  {| docxFileBase64 := Page.Buffer_toString_base64 B arrayBuffer;
                     originalFileName := Page.name f |} (or_introl eq_refl))
        as (msg & Hmsg & ->).
      unfold Page.afterAction, error_output. simpl default.
      apply truthy_true_iff in Hmsg. rewrite Hmsg. simpl.
      split; [done|]. split.
      { intros uri fileName Hin. rewrite !elem_of_cons, elem_of_nil in Hin.
        by destruct Hin as [|[|]]. }
      split; [done|]. intros _. split; [done|]. split; [done|].
      exists msg. split; [by apply truthy_true_iff|done].
    + unfold Page.catchConversion. simpl.
      split; [done|]. split.
      { intros uri fileName Hin. rewrite !elem_of_cons, elem_of_nil in Hin.
        by destruct Hin as [|[|]]. }
      split; [done|]. intros _. split; [done|]. split; [done|].
      eexists. split; [|done].
      destruct (truthy (message e)) eqn:Ht; [by apply truthy_true_iff|done].
  - split; [done|]. split.
    { intros uri fileName Hin. rewrite !elem_of_cons, elem_of_nil in Hin.
      by destruct Hin as [|]. }
    split; [done|]. by intros [? [=]].
Qed.


